(** * Access-control modules of PulseAudio: module-access.c and module-flatpak.c

    A shallow embedding of the two access-control modules.  Both share the
    rule vocabulary, the per-client list of seen events and the event
    filter; module-flatpak additionally talks to the desktop portal over
    D-Bus and keeps a per-hook cache of the portal's answers.

    Pointers matter in module-flatpak: a D-Bus filter is registered with
    the [client_data *] as its user data, so the client entries live in an
    explicit heap indexed by pointers, and the hashmap of clients maps a
    client index to a pointer.  A computation that would dereference freed
    or NULL memory, or that hits [pa_assert_not_reached], yields [None]. *)

From stdpp Require Import base gmap list strings.
From Stdlib Require Import ZArith Ascii String.

Open Scope Z_scope.

(** ** Shared vocabulary *)
Module Common.

(** [pa_hook_result_t] *)
Inductive hook_result := PA_HOOK_OK | PA_HOOK_STOP | PA_HOOK_CANCEL.

#[global] Instance hook_result_eq_dec : EqDecision hook_result.
Proof. solve_decision. Defined.

(** [pa_access_hook_t]: the hooks the modules name, and the remaining
    hooks of the host, which the modules only reach through the loop that
    fills every policy slot. *)
Inductive access_hook :=
| PA_ACCESS_HOOK_GET_SINK_INFO
| PA_ACCESS_HOOK_GET_SOURCE_INFO
| PA_ACCESS_HOOK_GET_SERVER_INFO
| PA_ACCESS_HOOK_GET_MODULE_INFO
| PA_ACCESS_HOOK_GET_CARD_INFO
| PA_ACCESS_HOOK_STAT
| PA_ACCESS_HOOK_GET_SAMPLE_INFO
| PA_ACCESS_HOOK_PLAY_SAMPLE
| PA_ACCESS_HOOK_CONNECT_PLAYBACK
| PA_ACCESS_HOOK_CONNECT_RECORD
| PA_ACCESS_HOOK_GET_CLIENT_INFO
| PA_ACCESS_HOOK_KILL_CLIENT
| PA_ACCESS_HOOK_GET_SINK_INPUT_INFO
| PA_ACCESS_HOOK_MOVE_SINK_INPUT
| PA_ACCESS_HOOK_SET_SINK_INPUT_VOLUME
| PA_ACCESS_HOOK_SET_SINK_INPUT_MUTE
| PA_ACCESS_HOOK_KILL_SINK_INPUT
| PA_ACCESS_HOOK_GET_SOURCE_OUTPUT_INFO
| PA_ACCESS_HOOK_MOVE_SOURCE_OUTPUT
| PA_ACCESS_HOOK_SET_SOURCE_OUTPUT_VOLUME
| PA_ACCESS_HOOK_SET_SOURCE_OUTPUT_MUTE
| PA_ACCESS_HOOK_KILL_SOURCE_OUTPUT
| PA_ACCESS_HOOK_FILTER_SUBSCRIBE_EVENT
| PA_ACCESS_HOOK_OTHER (n : N).

#[global] Instance access_hook_eq_dec : EqDecision access_hook.
Proof. solve_decision. Defined.

(** [PA_INVALID_INDEX] = [(uint32_t) -1] *)
Definition PA_INVALID_INDEX : N := 4294967295%N.

(** [pa_subscription_event_type_t] constants of the host (pulse/def.h). *)
Definition PA_SUBSCRIPTION_EVENT_SINK : Z := 0x0000.
Definition PA_SUBSCRIPTION_EVENT_SOURCE : Z := 0x0001.
Definition PA_SUBSCRIPTION_EVENT_SINK_INPUT : Z := 0x0002.
Definition PA_SUBSCRIPTION_EVENT_SOURCE_OUTPUT : Z := 0x0003.
Definition PA_SUBSCRIPTION_EVENT_MODULE : Z := 0x0004.
Definition PA_SUBSCRIPTION_EVENT_CLIENT : Z := 0x0005.
Definition PA_SUBSCRIPTION_EVENT_SAMPLE_CACHE : Z := 0x0006.
Definition PA_SUBSCRIPTION_EVENT_SERVER : Z := 0x0007.
Definition PA_SUBSCRIPTION_EVENT_CARD : Z := 0x0009.
Definition PA_SUBSCRIPTION_EVENT_FACILITY_MASK : Z := 0x000F.
Definition PA_SUBSCRIPTION_EVENT_NEW : Z := 0x0000.
Definition PA_SUBSCRIPTION_EVENT_CHANGE : Z := 0x0010.
Definition PA_SUBSCRIPTION_EVENT_REMOVE : Z := 0x0020.
Definition PA_SUBSCRIPTION_EVENT_TYPE_MASK : Z := 0x0030.

(** [pa_access_data].  The [async_finish_cb] continuation is not a field:
    calling it is recorded in the module's log of finished requests, and
    [ad_id] identifies the request object the host passed in. *)
Record access_data := mk_access_data {
  ad_id : N;
  ad_client_index : N;
  ad_hook : access_hook;
  ad_object_index : N;
  ad_event : Z
}.

(** The parts of [pa_core] the rules read: for every sink input and
    source output, the index of its [client] back reference, if any. *)
Record pa_core := mk_core {
  sink_inputs : gmap N (option N);
  source_outputs : gmap N (option N)
}.

(** [struct event_item]: the list of (facility, object index) pairs. *)
Record event_item := mk_event_item {
  ei_facility : Z;
  ei_object_index : N
}.

#[global] Instance event_item_eq_dec : EqDecision event_item.
Proof. solve_decision. Defined.

(** [add_event]: [PA_LLIST_PREPEND] of a new item. *)
Definition add_event (events : list event_item) (facility : Z) (oidx : N)
  : list event_item :=
  mk_event_item facility oidx :: events.

Definition event_matches (facility : Z) (oidx : N) (i : event_item) : bool :=
  bool_decide (ei_facility i = facility) && bool_decide (ei_object_index i = oidx).

(** [find_event]: the first matching item. *)
Fixpoint find_event (events : list event_item) (facility : Z) (oidx : N)
  : option event_item :=
  match events with
  | [] => None
  | i :: rest => if event_matches facility oidx i then Some i
                 else find_event rest facility oidx
  end.

(** [remove_event]: unlink the item [find_event] returns, report whether
    there was one. *)
Fixpoint remove_first (events : list event_item) (facility : Z) (oidx : N)
  : list event_item :=
  match events with
  | [] => []
  | i :: rest => if event_matches facility oidx i then rest
                 else i :: remove_first rest facility oidx
  end.

Definition remove_event (events : list event_item) (facility : Z) (oidx : N)
  : bool * list event_item :=
  match find_event events facility oidx with
  | Some _ => (true, remove_first events facility oidx)
  | None => (false, events)
  end.

(** The function pointers a policy slot can hold: [R_allow] is
    [rule_allow], [R_block] is [rule_block], [R_check_owner] is
    [rule_check_owner] and [R_check_portal] is [rule_check_portal], which
    only exists in module-flatpak. *)
Inductive access_rule := R_allow | R_block | R_check_owner | R_check_portal.

#[global] Instance access_rule_eq_dec : EqDecision access_rule.
Proof. solve_decision. Defined.

(** [struct access_policy]: the [rule] array, [None] for a NULL slot. *)
Definition access_policy := access_hook -> option access_rule.

(** [access_policy_new]: every slot gets [rule_allow] or [rule_block]. *)
Definition access_policy_new (allow_all : bool) : access_policy :=
  fun _ => Some (if allow_all then R_allow else R_block).

(** [ap->rule[h] = r] *)
Definition set_rule (ap : access_policy) (h : access_hook) (r : access_rule)
  : access_policy :=
  fun h' => if decide (h' = h) then Some r else ap h'.

Definition set_rules (ap : access_policy) (hs : list access_hook) (r : access_rule)
  : access_policy :=
  fold_left (fun ap h => set_rule ap h r) hs ap.

(** [rule_check_owner]: the owner index, then the comparison. *)
Definition stream_owner (reg : gmap N (option N)) (oidx : N) : N :=
  match reg !! oidx with
  | Some (Some client) => client
  | _ => PA_INVALID_INDEX
  end.

Definition owner_index (c : pa_core) (d : access_data) : N :=
  match ad_hook d with
  | PA_ACCESS_HOOK_GET_CLIENT_INFO
  | PA_ACCESS_HOOK_KILL_CLIENT => ad_object_index d
  | PA_ACCESS_HOOK_GET_SINK_INPUT_INFO
  | PA_ACCESS_HOOK_MOVE_SINK_INPUT
  | PA_ACCESS_HOOK_SET_SINK_INPUT_VOLUME
  | PA_ACCESS_HOOK_SET_SINK_INPUT_MUTE
  | PA_ACCESS_HOOK_KILL_SINK_INPUT => stream_owner (sink_inputs c) (ad_object_index d)
  | PA_ACCESS_HOOK_GET_SOURCE_OUTPUT_INFO
  | PA_ACCESS_HOOK_MOVE_SOURCE_OUTPUT
  | PA_ACCESS_HOOK_SET_SOURCE_OUTPUT_VOLUME
  | PA_ACCESS_HOOK_SET_SOURCE_OUTPUT_MUTE
  | PA_ACCESS_HOOK_KILL_SOURCE_OUTPUT => stream_owner (source_outputs c) (ad_object_index d)
  | _ => PA_INVALID_INDEX
  end.

Definition rule_check_owner (c : pa_core) (d : access_data) : hook_result :=
  if decide (owner_index c d = ad_client_index d) then PA_HOOK_OK else PA_HOOK_STOP.

(** [event_hook[]]: a table of [FACILITY_MASK + 1] entries; the entries
    the initialiser leaves out are 0, the nil hook, written [None]. *)
Definition event_hook (facility : Z) : option access_hook :=
  if decide (facility = PA_SUBSCRIPTION_EVENT_SINK) then Some PA_ACCESS_HOOK_GET_SINK_INFO
  else if decide (facility = PA_SUBSCRIPTION_EVENT_SOURCE) then Some PA_ACCESS_HOOK_GET_SOURCE_INFO
  else if decide (facility = PA_SUBSCRIPTION_EVENT_SINK_INPUT) then Some PA_ACCESS_HOOK_GET_SINK_INPUT_INFO
  else if decide (facility = PA_SUBSCRIPTION_EVENT_SOURCE_OUTPUT) then Some PA_ACCESS_HOOK_GET_SOURCE_OUTPUT_INFO
  else if decide (facility = PA_SUBSCRIPTION_EVENT_MODULE) then Some PA_ACCESS_HOOK_GET_MODULE_INFO
  else if decide (facility = PA_SUBSCRIPTION_EVENT_CLIENT) then Some PA_ACCESS_HOOK_GET_CLIENT_INFO
  else if decide (facility = PA_SUBSCRIPTION_EVENT_SAMPLE_CACHE) then Some PA_ACCESS_HOOK_GET_SAMPLE_INFO
  else if decide (facility = PA_SUBSCRIPTION_EVENT_SERVER) then Some PA_ACCESS_HOOK_GET_SERVER_INFO
  else if decide (facility = PA_SUBSCRIPTION_EVENT_CARD) then Some PA_ACCESS_HOOK_GET_CARD_INFO
  else None.

Definition event_facility (ev : Z) : Z := Z.land ev PA_SUBSCRIPTION_EVENT_FACILITY_MASK.
Definition event_type (ev : Z) : Z := Z.land ev PA_SUBSCRIPTION_EVENT_TYPE_MASK.

(** [pa_access_data data = *d; data.hook = event_hook[facility];] *)
Definition derived_request (d : access_data) (h : access_hook) : access_data :=
  mk_access_data (ad_id d) (ad_client_index d) h (ad_object_index d) (ad_event d).

(** The hooks both built-in policies of both modules allow. *)
Definition info_hooks : list access_hook :=
  [PA_ACCESS_HOOK_GET_SINK_INFO; PA_ACCESS_HOOK_GET_SOURCE_INFO;
   PA_ACCESS_HOOK_GET_SERVER_INFO; PA_ACCESS_HOOK_GET_MODULE_INFO;
   PA_ACCESS_HOOK_GET_CARD_INFO; PA_ACCESS_HOOK_STAT;
   PA_ACCESS_HOOK_GET_SAMPLE_INFO].

(** The hooks both built-in policies guard with [rule_check_owner]. *)
Definition owner_hooks : list access_hook :=
  [PA_ACCESS_HOOK_GET_CLIENT_INFO; PA_ACCESS_HOOK_KILL_CLIENT;
   PA_ACCESS_HOOK_GET_SINK_INPUT_INFO; PA_ACCESS_HOOK_MOVE_SINK_INPUT;
   PA_ACCESS_HOOK_SET_SINK_INPUT_VOLUME; PA_ACCESS_HOOK_SET_SINK_INPUT_MUTE;
   PA_ACCESS_HOOK_KILL_SINK_INPUT;
   PA_ACCESS_HOOK_GET_SOURCE_OUTPUT_INFO; PA_ACCESS_HOOK_MOVE_SOURCE_OUTPUT;
   PA_ACCESS_HOOK_SET_SOURCE_OUTPUT_VOLUME; PA_ACCESS_HOOK_SET_SOURCE_OUTPUT_MUTE;
   PA_ACCESS_HOOK_KILL_SOURCE_OUTPUT].

(** The case groups of the [switch] in [rule_check_owner]. *)
Definition client_hooks : list access_hook :=
  [PA_ACCESS_HOOK_GET_CLIENT_INFO; PA_ACCESS_HOOK_KILL_CLIENT].

Definition sink_input_hooks : list access_hook :=
  [PA_ACCESS_HOOK_GET_SINK_INPUT_INFO; PA_ACCESS_HOOK_MOVE_SINK_INPUT;
   PA_ACCESS_HOOK_SET_SINK_INPUT_VOLUME; PA_ACCESS_HOOK_SET_SINK_INPUT_MUTE;
   PA_ACCESS_HOOK_KILL_SINK_INPUT].

Definition source_output_hooks : list access_hook :=
  [PA_ACCESS_HOOK_GET_SOURCE_OUTPUT_INFO; PA_ACCESS_HOOK_MOVE_SOURCE_OUTPUT;
   PA_ACCESS_HOOK_SET_SOURCE_OUTPUT_VOLUME; PA_ACCESS_HOOK_SET_SOURCE_OUTPUT_MUTE;
   PA_ACCESS_HOOK_KILL_SOURCE_OUTPUT].

End Common.

(** ** module-access.c: the plain broker *)
Module Access.
Import Common.

(** [struct client_data] of module-access. *)
Record client_data := mk_client_data {
  cd_index : N;
  cd_policy : N;
  cd_events : list event_item
}.

(** [struct userdata], with the [pa_core] the rules read.  [policies] is
    the [pa_idxset] of policies, keyed by their index. *)
Record userdata := mk_userdata {
  core : pa_core;
  policies : gmap N access_policy;
  default_policy : N;
  clients : gmap N client_data
}.

Definition client_data_get (u : userdata) (index : N) : option client_data :=
  clients u !! index.

Definition set_client (u : userdata) (index : N) (cd : client_data) : userdata :=
  mk_userdata (core u) (policies u) (default_policy u) (<[index := cd]> (clients u)).

(** Running a rule of this module; it has no portal rule, so a slot
    holding one has no function to call. *)
Definition run_rule (u : userdata) (r : access_rule) (d : access_data) : option hook_result :=
  match r with
  | R_allow => Some PA_HOOK_OK
  | R_block => Some PA_HOOK_STOP
  | R_check_owner => Some (rule_check_owner (core u) d)
  | R_check_portal => None
  end.

(** [check_access]; [None] when the policy index is stale ([ap] NULL). *)
Definition check_access (u : userdata) (d : access_data) : option hook_result :=
  match client_data_get u (ad_client_index d) with
  | None => Some PA_HOOK_STOP
  | Some cd =>
      match policies u !! cd_policy cd with
      | None => None
      | Some ap =>
          match ap (ad_hook d) with
          | Some r => run_rule u r d
          | None => Some PA_HOOK_STOP
          end
      end
  end.

(** The new-object branch of [filter_event]: the module's own slot is the
    one [pa_hook_fire] runs on [c->access[data.hook]], and for the get-info
    hooks of [event_hook] that slot is [check_access]. *)
Definition filter_new (u : userdata) (cd : client_data) (d : access_data) (facility : Z)
  : option (hook_result * userdata) :=
  match event_hook facility with
  | None => Some (PA_HOOK_STOP, u)
  | Some h =>
      match check_access u (derived_request d h) with
      | None => None
      | Some PA_HOOK_OK =>
          Some (PA_HOOK_OK,
                set_client u (ad_client_index d)
                  (mk_client_data (cd_index cd) (cd_policy cd)
                     (add_event (cd_events cd) facility (ad_object_index d))))
      | Some _ => Some (PA_HOOK_STOP, u)
      end
  end.

(** [filter_event] *)
Definition filter_event (u : userdata) (d : access_data) : option (hook_result * userdata) :=
  let facility := event_facility (ad_event d) in
  match client_data_get u (ad_client_index d) with
  | None => Some (PA_HOOK_STOP, u)
  | Some cd =>
      let t := event_type (ad_event d) in
      if decide (t = PA_SUBSCRIPTION_EVENT_REMOVE) then
        match remove_event (cd_events cd) facility (ad_object_index d) with
        | (true, evs) =>
            Some (PA_HOOK_OK, set_client u (ad_client_index d)
                                (mk_client_data (cd_index cd) (cd_policy cd) evs))
        | (false, _) => Some (PA_HOOK_STOP, u)
        end
      else if decide (t = PA_SUBSCRIPTION_EVENT_CHANGE) then
        match find_event (cd_events cd) facility (ad_object_index d) with
        | Some _ => Some (PA_HOOK_OK, u)
        | None => filter_new u cd d facility
        end
      else if decide (t = PA_SUBSCRIPTION_EVENT_NEW) then filter_new u cd d facility
      else Some (PA_HOOK_STOP, u)
  end.

(** The callback [pa__init] connects to access hook [h]. *)
Definition access_hook_cb (u : userdata) (d : access_data) : option (hook_result * userdata) :=
  if decide (ad_hook d = PA_ACCESS_HOOK_FILTER_SUBSCRIBE_EVENT) then filter_event u d
  else match check_access u d with
       | Some r => Some (r, u)
       | None => None
       end.

(** The default policy built by [pa__init]. *)
Definition default_access_policy : access_policy :=
  let ap := access_policy_new false in
  let ap := set_rules ap info_hooks R_allow in
  let ap := set_rule ap PA_ACCESS_HOOK_PLAY_SAMPLE R_allow in
  let ap := set_rule ap PA_ACCESS_HOOK_CONNECT_PLAYBACK R_allow in
  set_rules ap owner_hooks R_check_owner.

(** The state right after [pa__init]: the first policy of an empty idxset
    gets index 0, and no client is known yet. *)
Definition pa__init (c : pa_core) : userdata :=
  mk_userdata c {[ 0%N := default_access_policy ]} 0%N ∅.

(** [find_policy_for_client] of module-access. *)
Definition find_policy_for_client (u : userdata) : N := default_policy u.

(** [client_put_cb]: [client_data_new] then [pa_hashmap_put], which keeps
    the existing entry when the index is already present. *)
Definition client_put_cb (u : userdata) (index : N) : userdata :=
  match clients u !! index with
  | Some _ => u
  | None => set_client u index (mk_client_data index (find_policy_for_client u) [])
  end.

(** [client_data_remove]: [pa_hashmap_remove_and_free], which frees the
    entry with [client_data_free]. *)
Definition client_data_remove (u : userdata) (index : N) : userdata :=
  mk_userdata (core u) (policies u) (default_policy u) (delete index (clients u)).

(** [client_proplist_changed_cb]: nothing for an unknown client, else the
    policy [find_policy_for_client] picks is stored in the entry. *)
Definition client_proplist_changed_cb (u : userdata) (index : N) : userdata :=
  match client_data_get u index with
  | None => u
  | Some cd =>
      set_client u index (mk_client_data (cd_index cd) (find_policy_for_client u) (cd_events cd))
  end.

(** [client_unlink_cb] *)
Definition client_unlink_cb (u : userdata) (index : N) : userdata :=
  client_data_remove u index.

(** What the host delivers to the module: an access hook with its data,
    or a client lifecycle hook with the client's index. *)
Inductive event :=
| Ev_access (d : access_data)
| Ev_client_put (index : N)
| Ev_client_proplist_changed (index : N)
| Ev_client_unlink (index : N).

(** One event: the hook result for an access hook, [None] otherwise;
    [None] overall when the callback dereferences a NULL policy. *)
Definition step (u : userdata) (ev : event) : option (option hook_result * userdata) :=
  match ev with
  | Ev_access d =>
      match access_hook_cb u d with
      | Some (r, u1) => Some (Some r, u1)
      | None => None
      end
  | Ev_client_put index => Some (None, client_put_cb u index)
  | Ev_client_proplist_changed index => Some (None, client_proplist_changed_cb u index)
  | Ev_client_unlink index => Some (None, client_unlink_cb u index)
  end.

Fixpoint run (u : userdata) (evs : list event) : option (list (option hook_result) * userdata) :=
  match evs with
  | [] => Some ([], u)
  | ev :: rest =>
      match step u ev with
      | None => None
      | Some (r, u1) =>
          match run u1 rest with
          | None => None
          | Some (rs, u2) => Some (r :: rs, u2)
          end
      end
  end.

End Access.

(** ** module-flatpak.c: the sandbox-aware broker *)
Module Flatpak.
Import Common.

(** [struct async_cache] *)
Record async_cache := mk_async_cache {
  checked : bool;
  granted : bool
}.

(** [struct client_data] of module-flatpak.  [cd_access_data] is the
    [pa_access_data *] saved by [rule_check_portal] ([None] for NULL).
    The [time_event] is left out: [client_data_new] creates it with
    [PA_USEC_INVALID], i.e. disarmed, and the only [time_restart] call of
    the module (in [timeout_cb] itself) passes NULL, so [timeout_cb] can
    never run. *)
Record client_data := mk_client_data {
  cd_index : N;
  cd_policy : N;
  cd_pid : N;
  cd_cached : access_hook -> async_cache;
  cd_access_data : option access_data;
  cd_events : list event_item
}.

(** An [AccessDevice] method call sent to the portal: its pid argument
    and the one device of its device array. *)
Record portal_call := mk_portal_call {
  pc_pid : N;
  pc_device : string
}.

(** [struct userdata], with the pieces of the outside world the module
    changes: [heap] holds the live [client_data] objects by address,
    [clients] is the hashmap from client index to address, [filters] the
    [portal_response] filters registered on the D-Bus connection (their
    user data, in registration order), [portal_calls] the method calls
    sent, and [finished] the [async_finish_cb (d, granted)] calls made. *)
Record userdata := mk_userdata {
  core : pa_core;
  policies : gmap N access_policy;
  default_policy : N;
  portal_policy : N;
  clients : gmap N N;
  heap : gmap N client_data;
  next_ptr : N;
  filters : list N;
  portal_calls : list portal_call;
  finished : list (N * bool)
}.

Definition with_heap (u : userdata) (h : gmap N client_data) : userdata :=
  mk_userdata (core u) (policies u) (default_policy u) (portal_policy u) (clients u)
    h (next_ptr u) (filters u) (portal_calls u) (finished u).

Definition with_filters (u : userdata) (fs : list N) : userdata :=
  mk_userdata (core u) (policies u) (default_policy u) (portal_policy u) (clients u)
    (heap u) (next_ptr u) fs (portal_calls u) (finished u).

Definition with_portal_calls (u : userdata) (cs : list portal_call) : userdata :=
  mk_userdata (core u) (policies u) (default_policy u) (portal_policy u) (clients u)
    (heap u) (next_ptr u) (filters u) cs (finished u).

Definition with_finished (u : userdata) (fin : list (N * bool)) : userdata :=
  mk_userdata (core u) (policies u) (default_policy u) (portal_policy u) (clients u)
    (heap u) (next_ptr u) (filters u) (portal_calls u) fin.

(** A store through the pointer [p]. *)
Definition put_cd (u : userdata) (p : N) (cd : client_data) : userdata :=
  with_heap u (<[p := cd]> (heap u)).

Definition set_access_data (cd : client_data) (d : option access_data) : client_data :=
  mk_client_data (cd_index cd) (cd_policy cd) (cd_pid cd) (cd_cached cd) d (cd_events cd).

Definition set_events (cd : client_data) (evs : list event_item) : client_data :=
  mk_client_data (cd_index cd) (cd_policy cd) (cd_pid cd) (cd_cached cd) (cd_access_data cd) evs.

(** [cd->cached[h] = c] *)
Definition set_cached (cd : client_data) (h : access_hook) (c : async_cache) : client_data :=
  mk_client_data (cd_index cd) (cd_policy cd) (cd_pid cd)
    (fun h' => if decide (h' = h) then c else cd_cached cd h')
    (cd_access_data cd) (cd_events cd).

Definition set_policy_pid (cd : client_data) (policy pid : N) : client_data :=
  mk_client_data (cd_index cd) policy pid (cd_cached cd) (cd_access_data cd) (cd_events cd).

(** How the bus calls of [rule_check_portal] turn out: whether
    [dbus_message_new_method_call] and [dbus_message_append_args]
    succeed, the reply of [dbus_connection_send_with_reply_and_block]
    ([None]: the call failed; [Some None]: a reply without an object path;
    [Some (Some handle)]), and whether [dbus_bus_add_match] succeeds. *)
Record bus_env := mk_bus_env {
  be_new_ok : bool;
  be_append_ok : bool;
  be_reply : option (option string);
  be_match_ok : bool
}.

(** The device tag; [None] is [pa_assert_not_reached ()]. *)
Definition portal_device (h : access_hook) : option string :=
  if decide (h = PA_ACCESS_HOOK_CONNECT_RECORD) then Some "microphone"%string
  else if decide (h = PA_ACCESS_HOOK_CONNECT_PLAYBACK) then Some "speakers"%string
  else if decide (h = PA_ACCESS_HOOK_PLAY_SAMPLE) then Some "speakers"%string
  else None.

(** [rule_check_portal] *)
Definition rule_check_portal (be : bus_env) (u : userdata) (d : access_data)
  : option (hook_result * userdata) :=
  match clients u !! ad_client_index d with
  | None => None
  | Some p =>
      match heap u !! p with
      | None => None
      | Some cd =>
          let c := cd_cached cd (ad_hook d) in
          if checked c then Some (if granted c then PA_HOOK_OK else PA_HOOK_STOP, u)
          else
            let u1 := put_cd u p (set_access_data cd (Some d)) in
            if negb (be_new_ok be) then Some (PA_HOOK_STOP, u1)
            else
              match portal_device (ad_hook d) with
              | None => None
              | Some device =>
                  if negb (be_append_ok be) then Some (PA_HOOK_STOP, u1)
                  else
                    let u2 := with_portal_calls u1
                                (portal_calls u1 ++ [mk_portal_call (cd_pid cd) device]) in
                    match be_reply be with
                    | Some (Some _) =>
                        if be_match_ok be
                        then Some (PA_HOOK_CANCEL, with_filters u2 (filters u2 ++ [p]))
                        else Some (PA_HOOK_STOP, u2)
                    | _ => Some (PA_HOOK_STOP, u2)
                    end
              end
      end
  end.

Definition run_rule (be : bus_env) (u : userdata) (r : access_rule) (d : access_data)
  : option (hook_result * userdata) :=
  match r with
  | R_allow => Some (PA_HOOK_OK, u)
  | R_block => Some (PA_HOOK_STOP, u)
  | R_check_owner => Some (rule_check_owner (core u) d, u)
  | R_check_portal => rule_check_portal be u d
  end.

(** [check_access] *)
Definition check_access (be : bus_env) (u : userdata) (d : access_data)
  : option (hook_result * userdata) :=
  match clients u !! ad_client_index d with
  | None => Some (PA_HOOK_STOP, u)
  | Some p =>
      match heap u !! p with
      | None => None
      | Some cd =>
          match policies u !! cd_policy cd with
          | None => None
          | Some ap =>
              match ap (ad_hook d) with
              | Some r => run_rule be u r d
              | None => Some (PA_HOOK_STOP, u)
              end
          end
      end
  end.

(** The new-object branch of [filter_event]: [pa_hook_fire] on
    [c->access[data.hook]] runs the module's slot for that hook, which is
    [check_access] for the get-info hooks of [event_hook]; [add_event]
    then writes through the [cd] pointer fetched before the fire. *)
Definition filter_new (be : bus_env) (u : userdata) (p : N) (d : access_data) (facility : Z)
  : option (hook_result * userdata) :=
  match event_hook facility with
  | None => Some (PA_HOOK_STOP, u)
  | Some h =>
      match check_access be u (derived_request d h) with
      | None => None
      | Some (PA_HOOK_OK, u1) =>
          match heap u1 !! p with
          | None => None
          | Some cd =>
              Some (PA_HOOK_OK,
                    put_cd u1 p (set_events cd (add_event (cd_events cd) facility (ad_object_index d))))
          end
      | Some (_, u1) => Some (PA_HOOK_STOP, u1)
      end
  end.

(** [filter_event] *)
Definition filter_event (be : bus_env) (u : userdata) (d : access_data)
  : option (hook_result * userdata) :=
  let facility := event_facility (ad_event d) in
  match clients u !! ad_client_index d with
  | None => Some (PA_HOOK_STOP, u)
  | Some p =>
      match heap u !! p with
      | None => None
      | Some cd =>
          let t := event_type (ad_event d) in
          if decide (t = PA_SUBSCRIPTION_EVENT_REMOVE) then
            match remove_event (cd_events cd) facility (ad_object_index d) with
            | (true, evs) => Some (PA_HOOK_OK, put_cd u p (set_events cd evs))
            | (false, _) => Some (PA_HOOK_STOP, u)
            end
          else if decide (t = PA_SUBSCRIPTION_EVENT_CHANGE) then
            match find_event (cd_events cd) facility (ad_object_index d) with
            | Some _ => Some (PA_HOOK_OK, u)
            | None => filter_new be u p d facility
            end
          else if decide (t = PA_SUBSCRIPTION_EVENT_NEW) then filter_new be u p d facility
          else Some (PA_HOOK_STOP, u)
      end
  end.

(** The callback [pa__init] connects to access hook [ad_hook d]. *)
Definition access_hook_cb (be : bus_env) (u : userdata) (d : access_data)
  : option (hook_result * userdata) :=
  if decide (ad_hook d = PA_ACCESS_HOOK_FILTER_SUBSCRIBE_EVENT) then filter_event be u d
  else check_access be u d.

(** D-Bus messages as [portal_response] reads them. *)
Inductive dbus_arg :=
| DBUS_TYPE_UINT32 (n : N)
| DBUS_TYPE_STRING (s : string)
| DBUS_TYPE_OBJECT_PATH (s : string).

Record dbus_message := mk_dbus_message {
  msg_is_signal : bool;
  msg_interface : string;
  msg_member : string;
  msg_args : list dbus_arg
}.

Inductive DBusHandlerResult := DBUS_HANDLER_RESULT_HANDLED | DBUS_HANDLER_RESULT_NOT_YET_HANDLED.

Definition dbus_message_is_signal (m : dbus_message) (iface member : string) : bool :=
  msg_is_signal m && bool_decide (msg_interface m = iface) && bool_decide (msg_member m = member).

(** [dbus_message_get_args (msg, &error, DBUS_TYPE_UINT32, &response,
    DBUS_TYPE_INVALID)]: [None] when the first argument is missing or not
    a UINT32, in which case [response] keeps its value. *)
Definition get_uint32_arg (args : list dbus_arg) : option N :=
  match args with
  | DBUS_TYPE_UINT32 n :: _ => Some n
  | _ => None
  end.

(** [dbus_connection_remove_filter]: libdbus scans the filter list from
    its end and unlinks the first match. *)
Fixpoint remove_one (p : N) (fs : list N) : list N :=
  match fs with
  | [] => []
  | q :: rest => if decide (q = p) then rest else q :: remove_one p rest
  end.

Definition dbus_connection_remove_filter (fs : list N) (p : N) : list N :=
  rev (remove_one p (rev fs)).

(** [portal_response] with user data [p]; [None] when it reads freed
    memory ([cd] not live) or dereferences a NULL [access_data]. *)
Definition portal_response (u : userdata) (p : N) (msg : dbus_message)
  : option (DBusHandlerResult * userdata) :=
  match heap u !! p with
  | None => None
  | Some cd =>
      if dbus_message_is_signal msg "org.freedesktop.portal.Request" "Response" then
        match cd_access_data cd with
        | None => None
        | Some d =>
            let u1 := with_filters u (dbus_connection_remove_filter (filters u) p) in
            let response := match get_uint32_arg (msg_args msg) with
                            | Some r => r
                            | None => 2%N
                            end in
            let g := bool_decide (response = 0%N) in
            let u2 := put_cd u1 p (set_cached cd (ad_hook d) (mk_async_cache true g)) in
            Some (DBUS_HANDLER_RESULT_HANDLED, with_finished u2 (finished u2 ++ [(ad_id d, g)]))
        end
      else Some (DBUS_HANDLER_RESULT_NOT_YET_HANDLED, u)
  end.

(** Dispatching a signal: libdbus runs a snapshot of the filter list in
    order, until one returns [HANDLED]. *)
Fixpoint run_filters (u : userdata) (fs : list N) (msg : dbus_message) : option userdata :=
  match fs with
  | [] => Some u
  | p :: rest =>
      match portal_response u p msg with
      | None => None
      | Some (DBUS_HANDLER_RESULT_HANDLED, u1) => Some u1
      | Some (DBUS_HANDLER_RESULT_NOT_YET_HANDLED, u1) => run_filters u1 rest msg
      end
  end.

Definition dispatch_signal (u : userdata) (msg : dbus_message) : option userdata :=
  run_filters u (filters u) msg.

(** The parts of a [pa_client] the lifecycle callbacks read;
    [cl_cgroup] is what reading [/proc/<pid>/cgroup] yields ([None] when
    [pa_open_cloexec] fails). *)
Record pa_client := mk_pa_client {
  cl_index : N;
  cl_creds_valid : bool;
  cl_pid : N;
  cl_cgroup : option string
}.

(** The loop of [client_is_sandboxed] over [pa_split_in_place (data, "\n",
    &n, &state)]: [current] is the rest of the buffer, [n] the length of
    its first line; [strncmp] compares the start of [current], [strstr]
    searches all of [current] and the hit must lie within the line. *)
Fixpoint scan_cgroup (fuel : nat) (current : string) : bool :=
  match fuel with
  | O => false
  | S fuel' =>
      match current with
      | EmptyString => false
      | String _ _ =>
          let n := match index 0 (String "010" EmptyString) current with
                   | Some l => l
                   | None => length current
                   end in
          let state := match substring n (length current - n) current with
                       | String _ rest => rest
                       | EmptyString => EmptyString
                       end in
          if prefix "1:name=systemd:" current then
            match index 0 "flatpak-" current with
            | Some off => if Nat.ltb off n then true else scan_cgroup fuel' state
            | None => scan_cgroup fuel' state
            end
          else scan_cgroup fuel' state
      end
  end.

(** [client_is_sandboxed]: [pa_loop_read] reads at most 2048 bytes; the
    model takes the bytes read as the NUL-terminated buffer. *)
Definition client_is_sandboxed (cl : pa_client) : bool :=
  if cl_creds_valid cl then
    match cl_cgroup cl with
    | None => false
    | Some contents =>
        let data := substring 0 2048 contents in
        scan_cgroup (S (length data)) data
    end
  else false.

(** [find_policy_for_client] of module-flatpak, as written: the
    [return u->default_policy;] before the sandbox test ends it. *)
Definition find_policy_for_client (u : userdata) (cl : pa_client) : N :=
  default_policy u.

(** The branch after that early return (the rest of the function body),
    which the early return makes unreachable: the portal policy for a
    client [client_is_sandboxed] accepts, the default policy otherwise. *)
Definition sandboxed_policy_for_client (u : userdata) (cl : pa_client) : N :=
  if client_is_sandboxed cl then portal_policy u else default_policy u.

(** The lifecycle callbacks below take the policy selection as a
    parameter [select]: the module as written uses
    [find_policy_for_client]; [sandboxed_policy_for_client] gives the
    module without the early return, the only way a client can be bound
    to the portal policy. *)

Definition empty_cache : access_hook -> async_cache := fun _ => mk_async_cache false false.

(** [client_put_cb]: [client_data_new] allocates a fresh [client_data]
    and [pa_hashmap_put]s it, which keeps an existing entry for the same
    index (the new object is then unreachable). *)
Definition client_put_cb_sel (select : userdata -> pa_client -> N)
  (u : userdata) (cl : pa_client) : userdata :=
  let policy := select u cl in
  let p := next_ptr u in
  let cd := mk_client_data (cl_index cl) policy (cl_pid cl) empty_cache None [] in
  let cls := match clients u !! cl_index cl with
             | Some _ => clients u
             | None => <[cl_index cl := p]> (clients u)
             end in
  mk_userdata (core u) (policies u) (default_policy u) (portal_policy u) cls
    (<[p := cd]> (heap u)) (N.succ p) (filters u) (portal_calls u) (finished u).

(** [client_auth_cb] and [client_proplist_changed_cb]. *)
Definition client_auth_cb_sel (select : userdata -> pa_client -> N)
  (u : userdata) (cl : pa_client) : option userdata :=
  match clients u !! cl_index cl with
  | None => Some u
  | Some p =>
      match heap u !! p with
      | None => None
      | Some cd => Some (put_cd u p (set_policy_pid cd (select u cl) (cl_pid cl)))
      end
  end.

Definition client_proplist_changed_cb_sel (select : userdata -> pa_client -> N)
  (u : userdata) (cl : pa_client) : option userdata :=
  client_auth_cb_sel select u cl.

(** [client_unlink_cb]: [pa_hashmap_remove_and_free] with
    [client_data_free], which frees the events, the time event and the
    [client_data] itself, and nothing else. *)
Definition client_unlink_cb (u : userdata) (cl : pa_client) : userdata :=
  match clients u !! cl_index cl with
  | None => u
  | Some p =>
      mk_userdata (core u) (policies u) (default_policy u) (portal_policy u)
        (delete (cl_index cl) (clients u)) (delete p (heap u)) (next_ptr u)
        (filters u) (portal_calls u) (finished u)
  end.

(** The two policies of [pa__init]. *)
Definition flatpak_default_policy : access_policy :=
  let ap := access_policy_new false in
  let ap := set_rules ap info_hooks R_allow in
  let ap := set_rule ap PA_ACCESS_HOOK_PLAY_SAMPLE R_allow in
  let ap := set_rule ap PA_ACCESS_HOOK_CONNECT_PLAYBACK R_allow in
  let ap := set_rule ap PA_ACCESS_HOOK_CONNECT_RECORD R_allow in
  set_rules ap owner_hooks R_check_owner.

Definition flatpak_portal_policy : access_policy :=
  let ap := access_policy_new false in
  let ap := set_rules ap info_hooks R_allow in
  let ap := set_rule ap PA_ACCESS_HOOK_PLAY_SAMPLE R_check_portal in
  let ap := set_rule ap PA_ACCESS_HOOK_CONNECT_PLAYBACK R_check_portal in
  let ap := set_rule ap PA_ACCESS_HOOK_CONNECT_RECORD R_check_portal in
  set_rules ap owner_hooks R_check_owner.

(** The state right after [pa__init]: the idxset hands out 0 and 1. *)
Definition pa__init (c : pa_core) : userdata :=
  mk_userdata c {[ 0%N := flatpak_default_policy; 1%N := flatpak_portal_policy ]}
    0%N 1%N ∅ ∅ 1%N [] [] [].

(** What the main loop delivers to the module. *)
Inductive event :=
| Ev_access (be : bus_env) (d : access_data)
| Ev_signal (msg : dbus_message)
| Ev_client_put (cl : pa_client)
| Ev_client_auth (cl : pa_client)
| Ev_client_proplist_changed (cl : pa_client)
| Ev_client_unlink (cl : pa_client).

(** One event: the hook result for an access hook, [None] otherwise. *)
Definition step_sel (select : userdata -> pa_client -> N) (u : userdata) (ev : event)
  : option (option hook_result * userdata) :=
  match ev with
  | Ev_access be d =>
      match access_hook_cb be u d with
      | Some (r, u1) => Some (Some r, u1)
      | None => None
      end
  | Ev_signal msg =>
      match dispatch_signal u msg with
      | Some u1 => Some (None, u1)
      | None => None
      end
  | Ev_client_put cl => Some (None, client_put_cb_sel select u cl)
  | Ev_client_auth cl =>
      match client_auth_cb_sel select u cl with Some u1 => Some (None, u1) | None => None end
  | Ev_client_proplist_changed cl =>
      match client_proplist_changed_cb_sel select u cl with
      | Some u1 => Some (None, u1)
      | None => None
      end
  | Ev_client_unlink cl => Some (None, client_unlink_cb u cl)
  end.

Fixpoint run_sel (select : userdata -> pa_client -> N) (u : userdata) (evs : list event)
  : option (list (option hook_result) * userdata) :=
  match evs with
  | [] => Some ([], u)
  | ev :: rest =>
      match step_sel select u ev with
      | None => None
      | Some (r, u1) =>
          match run_sel select u1 rest with
          | None => None
          | Some (rs, u2) => Some (r :: rs, u2)
          end
      end
  end.

(** The cache slot [h] of the entry at address [p] holds the answer [g],
    and no response filter for [p] can write that slot again: either no
    filter with user data [p] is registered, or the saved request is for
    another hook.  [p] is below [next_ptr], so no later [client_data_new]
    reuses it. *)
Definition cache_settled (p : N) (h : access_hook) (g : bool) (u : userdata) : Prop :=
  (p < next_ptr u)%N /\
  forall cd, heap u !! p = Some cd ->
    cd_cached cd h = mk_async_cache true g /\
    (p ∉ filters u \/ forall d, cd_access_data cd = Some d -> ad_hook d <> h).

(** [timeout_cb], the callback of the entry's time event: it marks the
    slot of the saved request's hook as checked and granted and calls
    [async_finish_cb] with [granted]; the [time_restart] with NULL only
    disarms the event.  [None] for freed memory or a NULL [access_data]. *)
Definition timeout_cb (u : userdata) (p : N) : option userdata :=
  match heap u !! p with
  | None => None
  | Some cd =>
      match cd_access_data cd with
      | None => None
      | Some d =>
          let cd1 := set_cached cd (ad_hook d) (mk_async_cache true (granted (cd_cached cd (ad_hook d)))) in
          let cd2 := set_cached cd1 (ad_hook d) (mk_async_cache true true) in
          let u1 := put_cd u p cd2 in
          Some (with_finished u1 (finished u1 ++ [(ad_id d, granted (cd_cached cd2 (ad_hook d)))]))
      end
  end.

(** The hashmap of clients points only at live entries, each keyed by its
    own index, and every live entry lies below [next_ptr], the address
    the next [client_data_new] gets. *)
Definition clients_consistent (u : userdata) : Prop :=
  (forall i p, clients u !! i = Some p -> exists cd, heap u !! p = Some cd /\ cd_index cd = i) /\
  (forall p cd, heap u !! p = Some cd -> (p < next_ptr u)%N).

(** A transition that neither adds nor frees a client entry, nor changes
    the index or the policy of one, nor the policies themselves. *)
Definition entries_preserved (u u' : userdata) : Prop :=
  clients u' = clients u /\ next_ptr u' = next_ptr u /\
  policies u' = policies u /\ default_policy u' = default_policy u /\
  portal_policy u' = portal_policy u /\
  forall p, option_map (fun cd => (cd_index cd, cd_policy cd)) (heap u' !! p) =
            option_map (fun cd => (cd_index cd, cd_policy cd)) (heap u !! p).

(** A state without portal activity: the client entries are consistent,
    every live entry is bound to the default policy, which is the one
    [pa__init] builds, and no filter, portal call or [async_finish_cb]
    call has happened. *)
Definition no_portal_state (u : userdata) : Prop :=
  clients_consistent u /\
  policies u !! default_policy u = Some flatpak_default_policy /\
  (forall p cd, heap u !! p = Some cd -> cd_policy cd = default_policy u) /\
  filters u = [] /\ portal_calls u = [] /\ finished u = [].


(** The module as written. *)
Definition client_put_cb := client_put_cb_sel find_policy_for_client.
Definition step := step_sel find_policy_for_client.
Definition run := run_sel find_policy_for_client.

End Flatpak.

(** ** Concrete configurations used by the examples below *)
Module Scenarios.
Import Common Flatpak.

(** Sink input 7 belongs to client 5. *)
Definition core0 : pa_core := mk_core {[ 7%N := Some 5%N ]} ∅.

Definition newline : string := String "010" EmptyString.

(** The cgroup file of a process running inside a flatpak sandbox. *)
Definition flatpak_cgroup : string :=
  ("1:name=systemd:/user.slice/user-1000.slice/flatpak-org.example.App-1234.scope" ++ newline)%string.

(** Client 5 with trusted credentials, pid 4242, sandboxed. *)
Definition client5 : pa_client := mk_pa_client 5 true 4242 (Some flatpak_cgroup).

(** Every bus step of [rule_check_portal] succeeds. *)
Definition bus_ok : bus_env :=
  mk_bus_env true true (Some (Some "/org/freedesktop/portal/desktop/request/1_1/t"%string)) true.

(** Request number [id] of client 5 on hook [h] for object 0. *)
Definition req (id : N) (h : access_hook) : access_data := mk_access_data id 5 h 0 0.

(** A subscription event of type [t] for object [obj] of facility [f],
    delivered to client 5. *)
Definition sub_event (id : N) (t f : Z) (obj : N) : access_data :=
  mk_access_data id 5 PA_ACCESS_HOOK_FILTER_SUBSCRIBE_EVENT obj (Z.lor t f).

(** The portal's [Response] signal with response code [n]. *)
Definition response (n : N) : dbus_message :=
  mk_dbus_message true "org.freedesktop.portal.Request" "Response" [DBUS_TYPE_UINT32 n].

(** Start of the module, client 5 connects. *)
Definition start : userdata := pa__init core0.

(** The module without the early return in [find_policy_for_client]:
    client 5 connects (portal policy) and asks for CONNECT_PLAYBACK. *)
Definition first_request_trace : list Flatpak.event :=
  [Flatpak.Ev_client_put client5;
   Flatpak.Ev_access bus_ok (req 1 PA_ACCESS_HOOK_CONNECT_PLAYBACK)].

Definition state_after (evs : list Flatpak.event) : userdata :=
  match Flatpak.run_sel Flatpak.sandboxed_policy_for_client start evs with
  | Some (_, u) => u
  | None => start
  end.

(** Client 5's entry while its first request is pending. *)
Definition pending_client5 : client_data :=
  mk_client_data 5 1 4242 empty_cache (Some (req 1 PA_ACCESS_HOOK_CONNECT_PLAYBACK)) [].

(** The portal grants the first request. *)
Definition granted_trace : list Flatpak.event :=
  first_request_trace ++ [Flatpak.Ev_signal (response 0)].

Definition granted_client5 : client_data :=
  set_cached pending_client5 PA_ACCESS_HOOK_CONNECT_PLAYBACK (mk_async_cache true true).

(** Afterwards client 5 asks for CONNECT_PLAYBACK again and then for
    CONNECT_RECORD, which starts a new arbitration. *)
Definition later_events : list Flatpak.event :=
  [Flatpak.Ev_access bus_ok (req 2 PA_ACCESS_HOOK_CONNECT_PLAYBACK);
   Flatpak.Ev_access bus_ok (req 3 PA_ACCESS_HOOK_CONNECT_RECORD)].

Definition later_state : userdata := state_after (granted_trace ++ later_events).

End Scenarios.

(** * Properties *)
Import Common.

(** ** Examples on the scenarios *)

Example sandboxed_client5 : Flatpak.client_is_sandboxed Scenarios.client5 = true.
Proof. vm_compute. reflexivity. Qed.

(** ** Policy selection *)

(** C1 (as written): [find_policy_for_client] returns the default policy
    for every client; in particular for client 5, whose credentials are
    trusted and which [client_is_sandboxed] classifies as confined, it
    returns the default policy (index 0), not the portal policy (index 1),
    and [client_put_cb] binds client 5 to the default policy. *)
Theorem find_policy_sandboxed_client_gets_default :
  (forall u cl, Flatpak.find_policy_for_client u cl = Flatpak.default_policy u) /\
  Flatpak.cl_creds_valid Scenarios.client5 = true /\
  Flatpak.client_is_sandboxed Scenarios.client5 = true /\
  Flatpak.find_policy_for_client Scenarios.start Scenarios.client5 = 0%N /\
  Flatpak.portal_policy Scenarios.start = 1%N /\
  Flatpak.sandboxed_policy_for_client Scenarios.start Scenarios.client5 = 1%N /\
  option_map Flatpak.cd_policy
    (Flatpak.heap (Flatpak.client_put_cb Scenarios.start Scenarios.client5) !! 1%N) = Some 0%N.
Proof.
  split; [reflexivity |].
  vm_compute. repeat split; reflexivity.
Qed.

(** ** Unknown clients *)

(** C9: for a [client_index] without a client entry, the decision engine
    [check_access] and the callback connected to every access hook
    (including the subscription event filter) return STOP and leave the
    state unchanged, in module-flatpak and in module-access. *)
Theorem unknown_client_stop :
  forall (be : Flatpak.bus_env) (u : Flatpak.userdata) (ua : Access.userdata) (d : access_data),
    Flatpak.clients u !! ad_client_index d = None ->
    Access.clients ua !! ad_client_index d = None ->
    Flatpak.check_access be u d = Some (PA_HOOK_STOP, u) /\
    Flatpak.access_hook_cb be u d = Some (PA_HOOK_STOP, u) /\
    Access.check_access ua d = Some PA_HOOK_STOP /\
    Access.access_hook_cb ua d = Some (PA_HOOK_STOP, ua).
Proof.
  intros be u ua d Hu Hua.
  unfold Flatpak.access_hook_cb, Flatpak.check_access, Flatpak.filter_event,
    Access.access_hook_cb, Access.check_access, Access.filter_event,
    Access.client_data_get.
  rewrite Hu, Hua.
  repeat split; destruct (decide _); reflexivity.
Qed.

Lemma unknown_client_stop_witness :
  Flatpak.clients Scenarios.start !! 99%N = None /\
  Access.clients (Access.pa__init Scenarios.core0) !! 99%N = None /\
  Flatpak.check_access Scenarios.bus_ok Scenarios.start
    (mk_access_data 0 99 PA_ACCESS_HOOK_GET_SINK_INFO 0 0) =
    Some (PA_HOOK_STOP, Scenarios.start).
Proof.
  assert (H1 : Flatpak.clients Scenarios.start !! 99%N = None) by reflexivity.
  assert (H2 : Access.clients (Access.pa__init Scenarios.core0) !! 99%N = None) by reflexivity.
  split; [exact H1 | split; [exact H2 |]].
  exact (proj1 (unknown_client_stop Scenarios.bus_ok Scenarios.start
                  (Access.pa__init Scenarios.core0)
                  (mk_access_data 0 99 PA_ACCESS_HOOK_GET_SINK_INFO 0 0) H1 H2)).
Defined.

(** ** The owner check *)

(** C10: [rule_check_owner] returns OK exactly when the owner index it
    computes equals the request's [client_index]; the owner is
    [PA_INVALID_INDEX] for hooks outside the client, sink-input and
    source-output groups and for absent or client-less streams, so there
    a request whose [client_index] is [PA_INVALID_INDEX] gets OK. *)
Theorem owner_check_invalid_index_ok :
  forall (c : pa_core) (d : access_data),
    ((rule_check_owner c d = PA_HOOK_OK) <-> (owner_index c d = ad_client_index d)) /\
    (ad_client_index d = PA_INVALID_INDEX ->
     (((ad_hook d ∉ client_hooks) /\ (ad_hook d ∉ sink_input_hooks) /\
       (ad_hook d ∉ source_output_hooks)) \/
      ((ad_hook d ∈ sink_input_hooks) /\
       (sink_inputs c !! ad_object_index d = None \/
        sink_inputs c !! ad_object_index d = Some None)) \/
      ((ad_hook d ∈ source_output_hooks) /\
       (source_outputs c !! ad_object_index d = None \/
        source_outputs c !! ad_object_index d = Some None))) ->
     rule_check_owner c d = PA_HOOK_OK).
Proof.
  intros c d. split.
  - unfold rule_check_owner. destruct (decide _); split; congruence.
  - intros Hinv Hnobody.
    unfold rule_check_owner. rewrite decide_True; [reflexivity |].
    rewrite Hinv.
    unfold owner_index, stream_owner, client_hooks, sink_input_hooks,
      source_output_hooks in *.
    destruct Hnobody as [[H1 [H2 H3]] | [[H1 H2] | [H1 H2]]];
      destruct (ad_hook d); try reflexivity;
      try (exfalso; set_solver);
      destruct H2 as [H2 | H2]; rewrite H2; reflexivity.
Qed.

Lemma owner_check_invalid_index_ok_witness :
  rule_check_owner Scenarios.core0
    (mk_access_data 0 PA_INVALID_INDEX PA_ACCESS_HOOK_KILL_SINK_INPUT 8 0) = PA_HOOK_OK.
Proof.
  apply (proj2 (owner_check_invalid_index_ok Scenarios.core0
                  (mk_access_data 0 PA_INVALID_INDEX PA_ACCESS_HOOK_KILL_SINK_INPUT 8 0))).
  - reflexivity.
  - right. left. split.
    + simpl. unfold sink_input_hooks. set_solver.
    + left. reflexivity.
Defined.

(** ** CONNECT_RECORD under the default policy *)

(** C8 (counterexample): in module-flatpak, client 5 is bound to the
    default policy on connection and its CONNECT_RECORD request gets OK. *)
Lemma flatpak_default_policy_allows_record :
  option_map fst
    (Flatpak.run Scenarios.start
       [Flatpak.Ev_client_put Scenarios.client5;
        Flatpak.Ev_access Scenarios.bus_ok (Scenarios.req 1 PA_ACCESS_HOOK_CONNECT_RECORD)])
  = Some [None; Some PA_HOOK_OK].
Proof. vm_compute. reflexivity. Qed.

(** C8 (amended): a client bound to the default policy gets STOP for
    CONNECT_RECORD from module-access, whose default policy leaves the slot
    at [rule_block], and OK from module-flatpak, whose default policy sets
    the slot to [rule_allow]. *)
Theorem connect_record_default_policy :
  forall (ua : Access.userdata) (ca : Access.client_data)
         (be : Flatpak.bus_env) (u : Flatpak.userdata) (p : N) (cd : Flatpak.client_data)
         (d : access_data),
    ad_hook d = PA_ACCESS_HOOK_CONNECT_RECORD ->
    Access.clients ua !! ad_client_index d = Some ca ->
    Access.cd_policy ca = Access.default_policy ua ->
    Access.policies ua !! Access.default_policy ua = Some Access.default_access_policy ->
    Flatpak.clients u !! ad_client_index d = Some p ->
    Flatpak.heap u !! p = Some cd ->
    Flatpak.cd_policy cd = Flatpak.default_policy u ->
    Flatpak.policies u !! Flatpak.default_policy u = Some Flatpak.flatpak_default_policy ->
    Access.check_access ua d = Some PA_HOOK_STOP /\
    Flatpak.check_access be u d = Some (PA_HOOK_OK, u).
Proof.
  intros ua ca be u p cd d Hh Hca Hpa Hdpa Hp Hcd Hpf Hdpf.
  unfold Access.check_access, Access.client_data_get, Flatpak.check_access.
  rewrite Hca, Hp, Hcd. cbv iota.
  rewrite Hpa, Hpf.
  unfold access_policy in *.
  rewrite Hdpa, Hdpf, Hh.
  split; reflexivity.
Qed.

Lemma connect_record_default_policy_witness :
  Access.check_access (Access.client_put_cb (Access.pa__init Scenarios.core0) 5)
    (Scenarios.req 1 PA_ACCESS_HOOK_CONNECT_RECORD) = Some PA_HOOK_STOP /\
  Flatpak.check_access Scenarios.bus_ok
    (Flatpak.client_put_cb Scenarios.start Scenarios.client5)
    (Scenarios.req 1 PA_ACCESS_HOOK_CONNECT_RECORD) =
    Some (PA_HOOK_OK, Flatpak.client_put_cb Scenarios.start Scenarios.client5).
Proof.
  eapply (connect_record_default_policy
            (Access.client_put_cb (Access.pa__init Scenarios.core0) 5)
            (Access.mk_client_data 5 0 []) Scenarios.bus_ok
            (Flatpak.client_put_cb Scenarios.start Scenarios.client5) 1%N);
    vm_compute; reflexivity.
Defined.

(** ** The seen list and the event filter *)

Import Scenarios.

(** C3 (failing input): client 5 (default policy) gets NEW for sink 2
    twice, then REMOVE for sink 2.  Each NEW passes the GET_SINK_INFO
    check and prepends an item, so the list holds the pair twice; the
    REMOVE unlinks one item and returns OK, the pair stays in the seen
    list, and a later CHANGE for sink 2 still passes. *)
Theorem seen_list_keeps_pair_after_remove :
  option_map (fun '(rs, u) => (rs, option_map Flatpak.cd_events (Flatpak.heap u !! 1%N)))
    (Flatpak.run start
       [Flatpak.Ev_client_put client5;
        Flatpak.Ev_access bus_ok (sub_event 1 PA_SUBSCRIPTION_EVENT_NEW PA_SUBSCRIPTION_EVENT_SINK 2);
        Flatpak.Ev_access bus_ok (sub_event 2 PA_SUBSCRIPTION_EVENT_NEW PA_SUBSCRIPTION_EVENT_SINK 2);
        Flatpak.Ev_access bus_ok (sub_event 3 PA_SUBSCRIPTION_EVENT_REMOVE PA_SUBSCRIPTION_EVENT_SINK 2);
        Flatpak.Ev_access bus_ok (sub_event 4 PA_SUBSCRIPTION_EVENT_CHANGE PA_SUBSCRIPTION_EVENT_SINK 2)])
  = Some ([None; Some PA_HOOK_OK; Some PA_HOOK_OK; Some PA_HOOK_OK; Some PA_HOOK_OK],
          Some [mk_event_item PA_SUBSCRIPTION_EVENT_SINK 2]).
Proof. vm_compute. reflexivity. Qed.

(** C2 (failing input): at the state reached by two NEW events for
    sink 2, whose seen list holds the pair twice, [filter_event] answers a
    REMOVE for sink 2 with OK but leaves the pair in the seen list. *)
Theorem filter_remove_leaves_duplicate :
  (match Flatpak.run start
           [Flatpak.Ev_client_put client5;
            Flatpak.Ev_access bus_ok (sub_event 1 PA_SUBSCRIPTION_EVENT_NEW PA_SUBSCRIPTION_EVENT_SINK 2);
            Flatpak.Ev_access bus_ok (sub_event 2 PA_SUBSCRIPTION_EVENT_NEW PA_SUBSCRIPTION_EVENT_SINK 2)]
   with
   | Some (_, u) =>
       match Flatpak.heap u !! 1%N,
             Flatpak.filter_event bus_ok u
               (sub_event 3 PA_SUBSCRIPTION_EVENT_REMOVE PA_SUBSCRIPTION_EVENT_SINK 2) with
       | Some cd, Some (r, u') =>
           Some (Flatpak.cd_events cd, r,
                 option_map (fun cd' => find_event (Flatpak.cd_events cd')
                                          PA_SUBSCRIPTION_EVENT_SINK 2%N)
                   (Flatpak.heap u' !! 1%N))
       | _, _ => None
       end
   | None => None
   end)
  = Some ([mk_event_item PA_SUBSCRIPTION_EVENT_SINK 2; mk_event_item PA_SUBSCRIPTION_EVENT_SINK 2],
          PA_HOOK_OK,
          Some (Some (mk_event_item PA_SUBSCRIPTION_EVENT_SINK 2))).
Proof. vm_compute. reflexivity. Qed.

(** ** Overlapping portal arbitrations *)

(** The trace of a sandboxed client 5, bound to the portal policy by
    [sandboxed_policy_for_client], asking twice for CONNECT_PLAYBACK. *)

(** C4 (counterexample): the second CONNECT_PLAYBACK of client 5, sent
    while the first one is pending, also gets CANCEL: a second
    [AccessDevice] call is sent, a second filter is registered and the
    saved request becomes the second one. *)
Lemma second_portal_check_not_refused :
  option_map
    (fun '(rs, u) =>
       (rs, List.length (Flatpak.portal_calls u), Flatpak.filters u,
        option_map Flatpak.cd_access_data (Flatpak.heap u !! 1%N)))
    (Flatpak.run_sel Flatpak.sandboxed_policy_for_client start
       [Flatpak.Ev_client_put client5;
        Flatpak.Ev_access bus_ok (req 1 PA_ACCESS_HOOK_CONNECT_PLAYBACK);
        Flatpak.Ev_access bus_ok (req 2 PA_ACCESS_HOOK_CONNECT_PLAYBACK)])
  = Some ([None; Some PA_HOOK_CANCEL; Some PA_HOOK_CANCEL], 2%nat, [1%N; 1%N],
          Some (Some (req 2 PA_ACCESS_HOOK_CONNECT_PLAYBACK))).
Proof. vm_compute. reflexivity. Qed.

(** C4 (amended): when the cache slot of the hook is unchecked,
    [rule_check_portal] does not look at a pending request: whatever
    [access_data] the client holds, it saves the new request, sends an
    [AccessDevice] call with the client's pid and the hook's device,
    registers one more response filter and returns CANCEL when the bus
    steps succeed. *)
Theorem portal_check_ignores_pending :
  forall (be : Flatpak.bus_env) (u : Flatpak.userdata) (d : access_data) (p : N)
         (cd : Flatpak.client_data) (device handle : string),
    Flatpak.clients u !! ad_client_index d = Some p ->
    Flatpak.heap u !! p = Some cd ->
    Flatpak.checked (Flatpak.cd_cached cd (ad_hook d)) = false ->
    Flatpak.portal_device (ad_hook d) = Some device ->
    Flatpak.be_new_ok be = true ->
    Flatpak.be_append_ok be = true ->
    Flatpak.be_reply be = Some (Some handle) ->
    Flatpak.be_match_ok be = true ->
    Flatpak.rule_check_portal be u d =
      Some (PA_HOOK_CANCEL,
            Flatpak.with_filters
              (Flatpak.with_portal_calls
                 (Flatpak.put_cd u p (Flatpak.set_access_data cd (Some d)))
                 (Flatpak.portal_calls u ++ [Flatpak.mk_portal_call (Flatpak.cd_pid cd) device]))
              (Flatpak.filters u ++ [p])).
Proof.
  intros be u d p cd device handle Hp Hcd Hc Hdev Hn Ha Hr Hm.
  unfold Flatpak.rule_check_portal.
  rewrite Hp, Hcd, Hc, Hn, Hdev, Ha, Hr, Hm.
  reflexivity.
Qed.

Lemma portal_check_ignores_pending_witness :
  Flatpak.heap (state_after first_request_trace) !! 1%N = Some pending_client5 /\
  Flatpak.rule_check_portal bus_ok (state_after first_request_trace)
    (req 2 PA_ACCESS_HOOK_CONNECT_PLAYBACK) =
  Some (PA_HOOK_CANCEL,
        Flatpak.with_filters
          (Flatpak.with_portal_calls
             (Flatpak.put_cd (state_after first_request_trace) 1%N
                (Flatpak.set_access_data pending_client5
                   (Some (req 2 PA_ACCESS_HOOK_CONNECT_PLAYBACK))))
             (Flatpak.portal_calls (state_after first_request_trace) ++
              [Flatpak.mk_portal_call 4242 "speakers"]))
          (Flatpak.filters (state_after first_request_trace) ++ [1%N])).
Proof.
  assert (Hcd : Flatpak.heap (state_after first_request_trace) !! 1%N = Some pending_client5)
    by (vm_compute; reflexivity).
  split; [exact Hcd |].
  apply (portal_check_ignores_pending bus_ok (state_after first_request_trace)
           (req 2 PA_ACCESS_HOOK_CONNECT_PLAYBACK) 1%N pending_client5 "speakers"
           "/org/freedesktop/portal/desktop/request/1_1/t");
    [vm_compute; reflexivity | exact Hcd | reflexivity ..].
Defined.

(** ** Unlink while an arbitration is pending *)

(** C5 (failing input): [client_unlink_cb] leaves the D-Bus filter list
    as it is.  Client 5 (bound to the portal policy) has a CONNECT_PLAYBACK
    request pending and unlinks: its [client_data] (address 1) is freed but
    the [portal_response] filter with that address stays registered, and
    the portal's next [Response] runs [portal_response] on the freed
    entry (use after free) instead of being dropped. *)
Theorem unlink_keeps_portal_filter :
  (forall (u : Flatpak.userdata) (cl : Flatpak.pa_client),
      Flatpak.filters (Flatpak.client_unlink_cb u cl) = Flatpak.filters u) /\
  option_map (fun '(rs, u) => (rs, Flatpak.filters u, Flatpak.heap u !! 1%N))
    (Flatpak.run_sel Flatpak.sandboxed_policy_for_client start
       (first_request_trace ++ [Flatpak.Ev_client_unlink client5]))
  = Some ([None; Some PA_HOOK_CANCEL; None], [1%N], None) /\
  Flatpak.run_sel Flatpak.sandboxed_policy_for_client start
    (first_request_trace ++ [Flatpak.Ev_client_unlink client5; Flatpak.Ev_signal (response 0)])
  = None.
Proof.
  split.
  - intros u cl. unfold Flatpak.client_unlink_cb.
    destruct (Flatpak.clients u !! Flatpak.cl_index cl); reflexivity.
  - split; vm_compute; reflexivity.
Qed.

(** ** Handling of the portal's answer *)

(** C7: when [portal_response] receives the [Response] signal for a client
    whose saved request is [d], it removes its filter, records in
    [cached[d.hook]] a checked answer that is granted exactly when the
    first argument is a UINT32 equal to 0 (a missing or ill-typed argument
    leaves [response = 2], denied), and calls [async_finish_cb (d, granted)]
    with the same answer. *)
Theorem portal_response_records_answer :
  forall (u : Flatpak.userdata) (p : N) (cd : Flatpak.client_data) (d : access_data)
         (msg : Flatpak.dbus_message),
    Flatpak.heap u !! p = Some cd ->
    Flatpak.cd_access_data cd = Some d ->
    Flatpak.dbus_message_is_signal msg "org.freedesktop.portal.Request" "Response" = true ->
    let g := bool_decide (Flatpak.get_uint32_arg (Flatpak.msg_args msg) = Some 0%N) in
    exists u' cd',
      Flatpak.portal_response u p msg = Some (Flatpak.DBUS_HANDLER_RESULT_HANDLED, u') /\
      Flatpak.heap u' !! p = Some cd' /\
      Flatpak.cd_cached cd' (ad_hook d) = Flatpak.mk_async_cache true g /\
      Flatpak.finished u' = Flatpak.finished u ++ [(ad_id d, g)] /\
      Flatpak.filters u' = Flatpak.dbus_connection_remove_filter (Flatpak.filters u) p.
Proof.
  intros u p cd d msg Hcd Hd Hsig g.
  unfold Flatpak.portal_response. rewrite Hcd, Hsig, Hd.
  assert (Hg : bool_decide (match Flatpak.get_uint32_arg (Flatpak.msg_args msg) with
                            | Some r => r
                            | None => 2%N
                            end = 0%N) = g).
  { subst g. destruct (Flatpak.get_uint32_arg (Flatpak.msg_args msg)) as [r |].
    - apply bool_decide_ext. split; [intros -> | intros Hr; inversion Hr]; reflexivity.
    - apply bool_decide_ext. split; discriminate. }
  rewrite Hg.
  eexists _, _. split; [reflexivity |].
  split; [simpl; apply lookup_insert_eq |].
  split; [simpl; rewrite decide_True; reflexivity |].
  split; reflexivity.
Qed.

Lemma portal_response_records_answer_witness :
  exists u' cd',
    Flatpak.portal_response (state_after first_request_trace) 1%N (response 0) =
      Some (Flatpak.DBUS_HANDLER_RESULT_HANDLED, u') /\
    Flatpak.heap u' !! 1%N = Some cd' /\
    Flatpak.cd_cached cd' PA_ACCESS_HOOK_CONNECT_PLAYBACK = Flatpak.mk_async_cache true true /\
    Flatpak.finished u' = Flatpak.finished (state_after first_request_trace) ++ [(1%N, true)] /\
    Flatpak.filters u' =
      Flatpak.dbus_connection_remove_filter (Flatpak.filters (state_after first_request_trace)) 1%N.
Proof.
  exact (portal_response_records_answer (state_after first_request_trace) 1%N pending_client5
           (req 1 PA_ACCESS_HOOK_CONNECT_PLAYBACK) (response 0)
           ltac:(vm_compute; reflexivity) eq_refl eq_refl).
Defined.

(** ** The portal cache *)

(** C6 (counterexample): client 5 (portal policy) asks for CONNECT_PLAYBACK
    twice before the portal answers.  The first [Response] (0) completes an
    arbitration with granted and the next CONNECT_PLAYBACK gets OK from the
    cache; the second [Response] (1), handled by the filter that is still
    registered, overwrites the slot with denied and the CONNECT_PLAYBACK
    after it gets STOP. *)
Lemma portal_cache_overwritten :
  option_map fst
    (Flatpak.run_sel Flatpak.sandboxed_policy_for_client start
       (first_request_trace ++
        [Flatpak.Ev_access bus_ok (req 2 PA_ACCESS_HOOK_CONNECT_PLAYBACK);
         Flatpak.Ev_signal (response 0);
         Flatpak.Ev_access bus_ok (req 3 PA_ACCESS_HOOK_CONNECT_PLAYBACK);
         Flatpak.Ev_signal (response 1);
         Flatpak.Ev_access bus_ok (req 4 PA_ACCESS_HOOK_CONNECT_PLAYBACK)]))
  = Some [None; Some PA_HOOK_CANCEL; Some PA_HOOK_CANCEL; None; Some PA_HOOK_OK; None;
          Some PA_HOOK_STOP].
Proof. vm_compute. reflexivity. Qed.

Module CacheProofs.
Import Flatpak.

(** A cache hit answers from the slot and changes nothing. *)
Lemma portal_cache_hit (be : bus_env) (u : userdata) (d : access_data) (p : N) (cd : client_data) :
  clients u !! ad_client_index d = Some p ->
  heap u !! p = Some cd ->
  checked (cd_cached cd (ad_hook d)) = true ->
  rule_check_portal be u d =
    Some (if granted (cd_cached cd (ad_hook d)) then PA_HOOK_OK else PA_HOOK_STOP, u).
Proof.
  intros Hp Hcd Hc. unfold rule_check_portal. rewrite Hp, Hcd, Hc. reflexivity.
Qed.

Section Settled.
Variables (p : N) (h : access_hook) (g : bool).

Lemma settled_frame (u u' : userdata) :
  cache_settled p h g u ->
  (next_ptr u <= next_ptr u')%N ->
  heap u' !! p = heap u !! p ->
  (p ∈ filters u' -> p ∈ filters u) ->
  cache_settled p h g u'.
Proof.
  intros [Hlt Hs] Hle Hheap Hf. split; [lia |].
  intros cd Hcd. rewrite Hheap in Hcd.
  destruct (Hs cd Hcd) as [Hc [Hnf | Hd]]; split; auto.
Qed.

Lemma settled_put_keep (u : userdata) (q : N) (cd cd' : client_data) :
  cache_settled p h g u ->
  heap u !! q = Some cd ->
  cd_cached cd' = cd_cached cd ->
  cd_access_data cd' = cd_access_data cd ->
  cache_settled p h g (put_cd u q cd').
Proof.
  intros [Hlt Hs] Hq Hc Ha. split; [exact Hlt |].
  intros cd0 Hcd0. simpl in Hcd0.
  destruct (decide (q = p)) as [-> | Hne].
  - rewrite lookup_insert_eq in Hcd0. injection Hcd0 as <-.
    destruct (Hs cd Hq) as [Hc0 Hf]. rewrite Hc, Ha. split; [exact Hc0 | exact Hf].
  - rewrite lookup_insert_ne in Hcd0 by congruence. exact (Hs cd0 Hcd0).
Qed.

Lemma settled_with_portal_calls (u : userdata) (cs : list portal_call) :
  cache_settled p h g u -> cache_settled p h g (with_portal_calls u cs).
Proof. intros H. exact H. Qed.

Lemma settled_with_finished (u : userdata) (fin : list (N * bool)) :
  cache_settled p h g u -> cache_settled p h g (with_finished u fin).
Proof. intros H. exact H. Qed.

Lemma elem_of_remove_one (x q : N) (l : list N) : x ∈ remove_one q l -> x ∈ l.
Proof.
  induction l as [| y l IH]; simpl; [done |].
  destruct (decide (y = q)); [set_solver |].
  rewrite !elem_of_cons. intros [-> | Hx]; [by left | right; auto].
Qed.

Lemma elem_of_remove_filter (x q : N) (l : list N) :
  x ∈ dbus_connection_remove_filter l q -> x ∈ l.
Proof.
  unfold dbus_connection_remove_filter. rewrite !list_elem_of_In, <- in_rev.
  intros Hx. apply list_elem_of_In, elem_of_remove_one, list_elem_of_In in Hx.
  by apply in_rev.
Qed.

Lemma settled_rule_check_portal (be : bus_env) (u u' : userdata) (d : access_data)
      (r : hook_result) :
  cache_settled p h g u ->
  rule_check_portal be u d = Some (r, u') ->
  cache_settled p h g u'.
Proof.
  intros Hs Hrun. unfold rule_check_portal in Hrun.
  destruct (clients u !! ad_client_index d) as [q |]; [| discriminate].
  destruct (heap u !! q) as [cdq |] eqn:Hq; [| discriminate].
  destruct (checked (cd_cached cdq (ad_hook d))) eqn:Hc.
  { injection Hrun as _ <-. exact Hs. }
  (* the state after [cd->access_data = d] *)
  assert (Hs1 : cache_settled p h g (put_cd u q (set_access_data cdq (Some d)))
                /\ (q = p -> ad_hook d <> h)).
  { destruct Hs as [Hlt Hs].
    destruct (decide (q = p)) as [-> | Hne].
    - destruct (Hs cdq Hq) as [Hch _].
      assert (Hdh : ad_hook d <> h) by (intros <-; rewrite Hch in Hc; discriminate).
      split; [| intros _; exact Hdh].
      split; [exact Hlt |]. intros cd0 Hcd0. simpl in Hcd0.
      rewrite lookup_insert_eq in Hcd0. injection Hcd0 as <-.
      split; [exact Hch |]. right. simpl. intros d0 Hd0. injection Hd0 as <-. exact Hdh.
    - split; [| intros Heq; congruence].
      apply (settled_frame u); [split; assumption | simpl; lia | | simpl; auto].
      simpl. rewrite lookup_insert_ne by congruence. reflexivity. }
  destruct Hs1 as [Hs1 Hqp].
  destruct (negb (be_new_ok be)).
  { injection Hrun as _ <-. exact Hs1. }
  destruct (portal_device (ad_hook d)) as [device |]; [| discriminate].
  destruct (negb (be_append_ok be)).
  { injection Hrun as _ <-. exact Hs1. }
  destruct (be_reply be) as [[handle |] |];
    [destruct (be_match_ok be) | |];
    injection Hrun as _ <-; try (apply settled_with_portal_calls; exact Hs1).
  (* the filter [q] is appended *)
  destruct Hs1 as [Hlt Hs1]. split; [exact Hlt |].
  intros cd0 Hcd0. destruct (Hs1 cd0 Hcd0) as [Hc0 Hf]. split; [exact Hc0 |].
  destruct (decide (q = p)) as [-> | Hne].
  - right. simpl in Hcd0. rewrite lookup_insert_eq in Hcd0. injection Hcd0 as <-.
    simpl. intros d0 Hd0. injection Hd0 as <-. exact (Hqp eq_refl).
  - destruct Hf as [Hnf | Hd]; [left | right; exact Hd].
    simpl. rewrite elem_of_app, list_elem_of_singleton. intros [Hin | ->]; [exact (Hnf Hin) | congruence].
Qed.

Lemma settled_check_access (be : bus_env) (u u' : userdata) (d : access_data)
      (r : hook_result) :
  cache_settled p h g u ->
  check_access be u d = Some (r, u') ->
  cache_settled p h g u'.
Proof.
  intros Hs Hrun. unfold check_access in Hrun.
  destruct (clients u !! ad_client_index d); [| injection Hrun as _ <-; exact Hs].
  destruct (heap u !! _); [| discriminate].
  destruct (policies u !! _); [| discriminate].
  destruct (_ (ad_hook d)) as [rule |]; [| injection Hrun as _ <-; exact Hs].
  destruct rule; simpl in Hrun; try (injection Hrun as _ <-; exact Hs).
  exact (settled_rule_check_portal be u u' d r Hs Hrun).
Qed.

Lemma settled_filter_event (be : bus_env) (u u' : userdata) (d : access_data)
      (r : hook_result) :
  cache_settled p h g u ->
  filter_event be u d = Some (r, u') ->
  cache_settled p h g u'.
Proof.
  intros Hs Hrun. unfold filter_event in Hrun.
  destruct (clients u !! ad_client_index d) as [q |]; [| injection Hrun as _ <-; exact Hs].
  destruct (heap u !! q) as [cdq |] eqn:Hq; [| discriminate].
  assert (Hnew : forall r' u1, filter_new be u q d (event_facility (ad_event d)) = Some (r', u1) ->
                               cache_settled p h g u1).
  { intros r' u1 Hn. unfold filter_new in Hn.
    destruct (event_hook _) as [hk |]; [| injection Hn as _ <-; exact Hs].
    destruct (check_access be u _) as [[r0 u0] |] eqn:Hc; [| discriminate].
    pose proof (settled_check_access be u u0 _ r0 Hs Hc) as Hs0.
    destruct r0; try (injection Hn as _ <-; exact Hs0).
    destruct (heap u0 !! q) as [cd0 |] eqn:Hq0; [| discriminate].
    injection Hn as _ <-. by apply (settled_put_keep u0 q cd0). }
  destruct (decide (event_type (ad_event d) = PA_SUBSCRIPTION_EVENT_REMOVE)).
  { destruct (remove_event _ _ _) as [[|] evs].
    - injection Hrun as _ <-. by apply (settled_put_keep u q cdq).
    - injection Hrun as _ <-. exact Hs. }
  destruct (decide (event_type (ad_event d) = PA_SUBSCRIPTION_EVENT_CHANGE)).
  { destruct (find_event _ _ _); [injection Hrun as _ <-; exact Hs | exact (Hnew _ _ Hrun)]. }
  destruct (decide (event_type (ad_event d) = PA_SUBSCRIPTION_EVENT_NEW));
    [exact (Hnew _ _ Hrun) | injection Hrun as _ <-; exact Hs].
Qed.

Lemma settled_access_hook_cb (be : bus_env) (u u' : userdata) (d : access_data)
      (r : hook_result) :
  cache_settled p h g u ->
  access_hook_cb be u d = Some (r, u') ->
  cache_settled p h g u'.
Proof.
  unfold access_hook_cb. destruct (decide _).
  - apply settled_filter_event.
  - apply settled_check_access.
Qed.

Lemma portal_response_not_handled (u u' : userdata) (q : N) (msg : dbus_message) :
  portal_response u q msg = Some (DBUS_HANDLER_RESULT_NOT_YET_HANDLED, u') -> u' = u.
Proof.
  unfold portal_response. destruct (heap u !! q); [| discriminate].
  destruct (dbus_message_is_signal _ _ _); [| congruence].
  destruct (cd_access_data _); discriminate.
Qed.

Lemma settled_portal_response (u u' : userdata) (q : N) (msg : dbus_message) :
  cache_settled p h g u ->
  q ∈ filters u ->
  portal_response u q msg = Some (DBUS_HANDLER_RESULT_HANDLED, u') ->
  cache_settled p h g u'.
Proof.
  intros [Hlt Hs] Hin Hrun. unfold portal_response in Hrun.
  destruct (heap u !! q) as [cdq |] eqn:Hq; [| discriminate].
  destruct (dbus_message_is_signal _ _ _); [| discriminate].
  destruct (cd_access_data cdq) as [dq |] eqn:Hdq; [| discriminate].
  injection Hrun as <-. split; [exact Hlt |].
  intros cd0 Hcd0. simpl in Hcd0.
  destruct (decide (q = p)) as [-> | Hne].
  - rewrite lookup_insert_eq in Hcd0. injection Hcd0 as <-.
    destruct (Hs cdq Hq) as [Hch [Hnf | Hd]]; [contradiction |].
    pose proof (Hd dq Hdq) as Hne.
    split.
    + simpl. rewrite decide_False by congruence. exact Hch.
    + right. exact Hd.
  - rewrite lookup_insert_ne in Hcd0 by congruence.
    destruct (Hs cd0 Hcd0) as [Hch [Hnf | Hd]]; split; auto.
    left. simpl. intros Hin'. apply Hnf. exact (elem_of_remove_filter p q _ Hin').
Qed.

Lemma settled_run_filters (fs : list N) (u u' : userdata) (msg : dbus_message) :
  cache_settled p h g u ->
  (forall q, q ∈ fs -> q ∈ filters u) ->
  run_filters u fs msg = Some u' ->
  cache_settled p h g u'.
Proof.
  revert u. induction fs as [| q fs IH]; intros u Hs Hfs Hrun; simpl in Hrun.
  - injection Hrun as <-. exact Hs.
  - destruct (portal_response u q msg) as [[[|] u1] |] eqn:Hr; [| | discriminate].
    + injection Hrun as <-.
      exact (settled_portal_response u u1 q msg Hs (Hfs q (list_elem_of_here q fs)) Hr).
    + apply portal_response_not_handled in Hr. subst u1.
      apply (IH u Hs); [| exact Hrun].
      intros q' Hq'. apply Hfs. by apply list_elem_of_further.
Qed.

Lemma settled_dispatch_signal (u u' : userdata) (msg : dbus_message) :
  cache_settled p h g u -> dispatch_signal u msg = Some u' -> cache_settled p h g u'.
Proof. intros Hs. apply (settled_run_filters (filters u) u u' msg Hs). auto. Qed.

Lemma settled_client_put (select : userdata -> pa_client -> N) (u : userdata) (cl : pa_client) :
  cache_settled p h g u -> cache_settled p h g (client_put_cb_sel select u cl).
Proof.
  intros Hs. pose proof (proj1 Hs) as Hlt.
  apply (settled_frame u); [exact Hs | simpl; lia | | simpl; auto].
  simpl. rewrite lookup_insert_ne by lia. reflexivity.
Qed.

Lemma settled_client_auth (select : userdata -> pa_client -> N) (u u' : userdata) (cl : pa_client) :
  cache_settled p h g u -> client_auth_cb_sel select u cl = Some u' -> cache_settled p h g u'.
Proof.
  intros Hs Hrun. unfold client_auth_cb_sel in Hrun.
  destruct (clients u !! cl_index cl) as [q |]; [| injection Hrun as <-; exact Hs].
  destruct (heap u !! q) as [cdq |] eqn:Hq; [| discriminate].
  injection Hrun as <-. by apply (settled_put_keep u q cdq).
Qed.

Lemma settled_client_unlink (u : userdata) (cl : pa_client) :
  cache_settled p h g u -> cache_settled p h g (client_unlink_cb u cl).
Proof.
  intros [Hlt Hs]. unfold client_unlink_cb.
  destruct (clients u !! cl_index cl) as [q |]; [| split; assumption].
  split; [exact Hlt |]. intros cd Hcd. simpl in Hcd.
  destruct (decide (q = p)) as [-> | Hne].
  - rewrite lookup_delete_eq in Hcd. discriminate.
  - rewrite lookup_delete_ne in Hcd by congruence. exact (Hs cd Hcd).
Qed.

Lemma settled_step (select : userdata -> pa_client -> N) (u u' : userdata) (ev : event)
      (r : option hook_result) :
  cache_settled p h g u -> step_sel select u ev = Some (r, u') -> cache_settled p h g u'.
Proof.
  intros Hs Hrun. destruct ev as [be d | msg | cl | cl | cl | cl]; simpl in Hrun.
  - destruct (access_hook_cb be u d) as [[r0 u0] |] eqn:Hc; [| discriminate].
    injection Hrun as _ <-. exact (settled_access_hook_cb be u u0 d r0 Hs Hc).
  - destruct (dispatch_signal u msg) as [u0 |] eqn:Hd; [| discriminate].
    injection Hrun as _ <-. exact (settled_dispatch_signal u u0 msg Hs Hd).
  - injection Hrun as _ <-. exact (settled_client_put select u cl Hs).
  - destruct (client_auth_cb_sel select u cl) as [u0 |] eqn:Ha; [| discriminate].
    injection Hrun as _ <-. exact (settled_client_auth select u u0 cl Hs Ha).
  - destruct (client_proplist_changed_cb_sel select u cl) as [u0 |] eqn:Ha; [| discriminate].
    injection Hrun as _ <-. exact (settled_client_auth select u u0 cl Hs Ha).
  - injection Hrun as _ <-. exact (settled_client_unlink u cl Hs).
Qed.

Lemma settled_run (select : userdata -> pa_client -> N) (evs : list event) (u u' : userdata)
      (rs : list (option hook_result)) :
  cache_settled p h g u -> run_sel select u evs = Some (rs, u') -> cache_settled p h g u'.
Proof.
  revert u rs. induction evs as [| ev evs IH]; intros u rs Hs Hrun; simpl in Hrun.
  - injection Hrun as _ <-. exact Hs.
  - destruct (step_sel select u ev) as [[r u1] |] eqn:Hst; [| discriminate].
    destruct (run_sel select u1 evs) as [[rs1 u2] |] eqn:Hr; [| discriminate].
    injection Hrun as _ <-.
    exact (IH u1 rs1 (settled_step select u u1 ev r Hs Hst) Hr).
Qed.

End Settled.
End CacheProofs.

(** C6 (amended): take a client entry (address [p]) whose cache slot for
    [h] holds the answer [g], with no response filter for [p] left
    registered (no second arbitration of that client was started while the
    completed one was pending).  After any sequence of hook calls, D-Bus
    signals and client events, as long as the entry lives, the slot still
    holds [g], and a portal check of that client for [h] returns OK when
    [g] is granted and STOP when denied, without a bus call or any state
    change. *)
Theorem portal_cache_sticky :
  forall (select : Flatpak.userdata -> Flatpak.pa_client -> N) (u u' : Flatpak.userdata)
         (evs : list Flatpak.event) (rs : list (option hook_result)) (p : N)
         (cd cd' : Flatpak.client_data) (g : bool) (be : Flatpak.bus_env) (d : access_data),
    Flatpak.heap u !! p = Some cd ->
    Flatpak.cd_cached cd (ad_hook d) = Flatpak.mk_async_cache true g ->
    p ∉ Flatpak.filters u ->
    (p < Flatpak.next_ptr u)%N ->
    Flatpak.run_sel select u evs = Some (rs, u') ->
    Flatpak.clients u' !! ad_client_index d = Some p ->
    Flatpak.heap u' !! p = Some cd' ->
    Flatpak.cd_cached cd' (ad_hook d) = Flatpak.mk_async_cache true g /\
    Flatpak.rule_check_portal be u' d =
      Some (if g then PA_HOOK_OK else PA_HOOK_STOP, u').
Proof.
  intros select u u' evs rs p cd cd' g be d Hcd Hc Hnf Hlt Hrun Hp Hcd'.
  assert (Hs : Flatpak.cache_settled p (ad_hook d) g u).
  { split; [exact Hlt |]. intros cd0 Hcd0. rewrite Hcd in Hcd0. injection Hcd0 as <-.
    split; [exact Hc | left; exact Hnf]. }
  destruct (CacheProofs.settled_run p (ad_hook d) g select evs u u' rs Hs Hrun) as [_ Hs'].
  destruct (Hs' cd' Hcd') as [Hc' _].
  split; [exact Hc' |].
  rewrite (CacheProofs.portal_cache_hit be u' d p cd' Hp Hcd'); rewrite Hc'; reflexivity.
Qed.

Lemma portal_cache_sticky_witness :
  Flatpak.cd_cached (Flatpak.set_access_data granted_client5
                       (Some (req 3 PA_ACCESS_HOOK_CONNECT_RECORD))) PA_ACCESS_HOOK_CONNECT_PLAYBACK
    = Flatpak.mk_async_cache true true /\
  Flatpak.rule_check_portal bus_ok later_state (req 4 PA_ACCESS_HOOK_CONNECT_PLAYBACK) =
    Some (PA_HOOK_OK, later_state).
Proof.
  exact (portal_cache_sticky Flatpak.sandboxed_policy_for_client (state_after granted_trace)
           later_state later_events [Some PA_HOOK_OK; Some PA_HOOK_CANCEL] 1%N granted_client5
           (Flatpak.set_access_data granted_client5 (Some (req 3 PA_ACCESS_HOOK_CONNECT_RECORD)))
           true bus_ok (req 4 PA_ACCESS_HOOK_CONNECT_PLAYBACK)
           ltac:(vm_compute; reflexivity) eq_refl ltac:(vm_compute; set_solver)
           ltac:(vm_compute; reflexivity) ltac:(vm_compute; reflexivity)
           ltac:(vm_compute; reflexivity) ltac:(vm_compute; reflexivity)).
Defined.

(** * Further properties of the two modules *)

Module SeenList.

Lemma event_matches_iff (f : Z) (o : N) (i : event_item) :
  event_matches f o i = true <-> i = mk_event_item f o.
Proof.
  unfold event_matches. rewrite andb_true_iff, !bool_decide_eq_true.
  destruct i as [f' o']; simpl. split; [intros [-> ->]; reflexivity | intros H; injection H as -> ->; auto].
Qed.

Lemma find_event_none_iff (evs : list event_item) (f : Z) (o : N) :
  find_event evs f o = None <-> mk_event_item f o ∉ evs.
Proof.
  induction evs as [| i evs IH]; simpl.
  - split; [intros _; apply not_elem_of_nil | reflexivity].
  - destruct (event_matches f o i) eqn:Hm.
    + apply event_matches_iff in Hm as ->. split; [discriminate | intros H; exfalso; apply H; left].
    + rewrite IH, elem_of_cons. split.
      * intros Hn [Heq | Hin]; [| exact (Hn Hin)].
        rewrite <- Heq in Hm. assert (event_matches f o (mk_event_item f o) = true) as Ht
          by (apply event_matches_iff; reflexivity). congruence.
      * intros Hn Hin. apply Hn. right. exact Hin.
Qed.

Lemma find_event_some (evs : list event_item) (f : Z) (o : N) (i : event_item) :
  find_event evs f o = Some i -> i = mk_event_item f o.
Proof.
  induction evs as [| j evs IH]; simpl; [discriminate |].
  destruct (event_matches f o j) eqn:Hm; [| exact IH].
  intros H. injection H as <-. by apply event_matches_iff.
Qed.

Lemma remove_first_length (evs : list event_item) (f : Z) (o : N) :
  mk_event_item f o ∈ evs -> S (List.length (remove_first evs f o)) = List.length evs.
Proof.
  induction evs as [| i evs IH]; simpl.
  - intros H. exfalso. by apply not_elem_of_nil in H.
  - destruct (event_matches f o i) eqn:Hm; [reflexivity |].
    rewrite elem_of_cons. intros [Heq | Hin].
    + rewrite <- Heq in Hm. assert (event_matches f o (mk_event_item f o) = true) as Ht
        by (apply event_matches_iff; reflexivity). congruence.
    + simpl. rewrite IH by exact Hin. reflexivity.
Qed.

Lemma remove_first_other (evs : list event_item) (f : Z) (o : N) (e : event_item) :
  e <> mk_event_item f o -> (e ∈ remove_first evs f o <-> e ∈ evs).
Proof.
  intros Hne. induction evs as [| i evs IH]; simpl; [reflexivity |].
  destruct (event_matches f o i) eqn:Hm.
  - apply event_matches_iff in Hm as ->. rewrite elem_of_cons. split; [intros H; by right |].
    intros [Heq | Hin]; [contradiction | exact Hin].
  - rewrite !elem_of_cons, IH. reflexivity.
Qed.

End SeenList.

(** X1: [add_event] then [find_event] finds the added pair, and [remove_event] of that pair removes exactly the added item, giving back the old list. *)
Theorem add_event_remove_event_roundtrip :
  forall (evs : list event_item) (f : Z) (o : N),
    find_event (add_event evs f o) f o = Some (mk_event_item f o) /\
    remove_event (add_event evs f o) f o = (true, evs).
Proof.
  intros evs f o.
  assert (Hm : event_matches f o (mk_event_item f o) = true) by (by apply SeenList.event_matches_iff).
  unfold remove_event, add_event. simpl. rewrite Hm. split; reflexivity.
Qed.

(** X2: [remove_event] reports [true] exactly when the pair is in the list, removes one item in that case, keeps every other pair's membership, and leaves the list unchanged when it reports [false]. *)
Theorem remove_event_removes_one :
  forall (evs evs' : list event_item) (f : Z) (o : N) (b : bool),
    remove_event evs f o = (b, evs') ->
    (b = true <-> mk_event_item f o ∈ evs) /\
    (List.length evs' + (if b then 1 else 0))%nat = List.length evs /\
    (forall e, e <> mk_event_item f o -> (e ∈ evs' <-> e ∈ evs)) /\
    (b = false -> evs' = evs).
Proof.
  intros evs evs' f o b. unfold remove_event.
  destruct (find_event evs f o) as [i |] eqn:Hf; intros H; injection H as <- <-.
  - assert (Hin : mk_event_item f o ∈ evs).
    { destruct (decide (mk_event_item f o ∈ evs)) as [Hin | Hn]; [exact Hin |].
      apply SeenList.find_event_none_iff in Hn. congruence. }
    split; [split; [intros _; exact Hin | reflexivity] |].
    split; [rewrite <- (SeenList.remove_first_length evs f o Hin); lia |].
    split; [intros e He; by apply SeenList.remove_first_other | discriminate].
  - apply SeenList.find_event_none_iff in Hf.
    split; [split; [discriminate | intros Hin; contradiction] |].
    split; [lia |]. split; [reflexivity | reflexivity].
Qed.

Lemma remove_event_removes_one_witness :
  remove_event [mk_event_item 0 2; mk_event_item 1 3; mk_event_item 0 2] 0 2 =
    (true, [mk_event_item 1 3; mk_event_item 0 2]) /\
  (true = true <-> mk_event_item 0 2 ∈ [mk_event_item 0 2; mk_event_item 1 3; mk_event_item 0 2]) /\
  (List.length [mk_event_item 1 3; mk_event_item 0 2] + 1)%nat = 3%nat.
Proof.
  assert (H : remove_event [mk_event_item 0 2; mk_event_item 1 3; mk_event_item 0 2] 0 2 =
              (true, [mk_event_item 1 3; mk_event_item 0 2])) by reflexivity.
  destruct (remove_event_removes_one _ _ _ _ _ H) as [H1 [H2 _]].
  split; [exact H | split; [exact H1 | exact H2]].
Defined.

(** X3: for the client hooks, [rule_check_owner] returns OK exactly when the object index is the requesting client's index. *)
Theorem owner_check_client_hooks :
  forall (c : pa_core) (d : access_data),
    ad_hook d ∈ client_hooks ->
    rule_check_owner c d = PA_HOOK_OK <-> ad_object_index d = ad_client_index d.
Proof.
  intros c d Hh. unfold rule_check_owner, owner_index.
  unfold client_hooks in Hh. rewrite !elem_of_cons in Hh.
  destruct Hh as [-> | [-> | Hh]]; [| | by apply not_elem_of_nil in Hh];
    (destruct (decide _) as [E | E]; split; [auto | auto | discriminate | intros; contradiction]).
Qed.

Lemma owner_check_client_hooks_witness :
  rule_check_owner Scenarios.core0 (mk_access_data 0 5 PA_ACCESS_HOOK_KILL_CLIENT 5 0) = PA_HOOK_OK.
Proof.
  apply (owner_check_client_hooks Scenarios.core0 (mk_access_data 0 5 PA_ACCESS_HOOK_KILL_CLIENT 5 0)).
  - simpl. right. left.
  - reflexivity.
Defined.

(** X4: for a valid client index, the owner check of a sink-input (source-output) hook returns OK exactly when the stream exists and belongs to that client. *)
Theorem owner_check_stream_hooks :
  forall (c : pa_core) (d : access_data),
    ad_client_index d <> PA_INVALID_INDEX ->
    (ad_hook d ∈ sink_input_hooks ->
       rule_check_owner c d = PA_HOOK_OK <->
       sink_inputs c !! ad_object_index d = Some (Some (ad_client_index d))) /\
    (ad_hook d ∈ source_output_hooks ->
       rule_check_owner c d = PA_HOOK_OK <->
       source_outputs c !! ad_object_index d = Some (Some (ad_client_index d))).
Proof.
  intros c d Hinv.
  assert (Hown : forall reg : gmap N (option N),
             stream_owner reg (ad_object_index d) = ad_client_index d <->
             reg !! ad_object_index d = Some (Some (ad_client_index d))).
  { intros reg. unfold stream_owner.
    destruct (reg !! ad_object_index d) as [[cl |] |]; split; intros H; try congruence. }
  unfold rule_check_owner, owner_index.
  split; intros Hh;
    [unfold sink_input_hooks in Hh | unfold source_output_hooks in Hh];
    repeat (rewrite elem_of_cons in Hh; destruct Hh as [Hh | Hh]);
    try (by apply not_elem_of_nil in Hh); rewrite Hh;
    (destruct (decide _) as [E | E]; rewrite <- Hown; split;
       [auto | auto | discriminate | intros; contradiction]).
Qed.

Lemma owner_check_stream_hooks_witness :
  rule_check_owner Scenarios.core0 (mk_access_data 0 5 PA_ACCESS_HOOK_SET_SINK_INPUT_VOLUME 7 0)
    = PA_HOOK_OK.
Proof.
  apply (proj1 (owner_check_stream_hooks Scenarios.core0
                  (mk_access_data 0 5 PA_ACCESS_HOOK_SET_SINK_INPUT_VOLUME 7 0)
                  ltac:(vm_compute; discriminate))).
  - simpl. right. right. left.
  - reflexivity.
Defined.

(** X5: for a hook outside the owner groups, the owner check returns OK exactly when the client index is [PA_INVALID_INDEX]. *)
Theorem owner_check_other_hooks :
  forall (c : pa_core) (d : access_data),
    ad_hook d ∉ owner_hooks ->
    rule_check_owner c d = PA_HOOK_OK <-> ad_client_index d = PA_INVALID_INDEX.
Proof.
  intros c d Hh. unfold rule_check_owner, owner_index.
  assert (Hidx : match ad_hook d with
                 | PA_ACCESS_HOOK_GET_CLIENT_INFO | PA_ACCESS_HOOK_KILL_CLIENT => ad_object_index d
                 | PA_ACCESS_HOOK_GET_SINK_INPUT_INFO | PA_ACCESS_HOOK_MOVE_SINK_INPUT
                 | PA_ACCESS_HOOK_SET_SINK_INPUT_VOLUME | PA_ACCESS_HOOK_SET_SINK_INPUT_MUTE
                 | PA_ACCESS_HOOK_KILL_SINK_INPUT => stream_owner (sink_inputs c) (ad_object_index d)
                 | PA_ACCESS_HOOK_GET_SOURCE_OUTPUT_INFO | PA_ACCESS_HOOK_MOVE_SOURCE_OUTPUT
                 | PA_ACCESS_HOOK_SET_SOURCE_OUTPUT_VOLUME | PA_ACCESS_HOOK_SET_SOURCE_OUTPUT_MUTE
                 | PA_ACCESS_HOOK_KILL_SOURCE_OUTPUT =>
                     stream_owner (source_outputs c) (ad_object_index d)
                 | _ => PA_INVALID_INDEX
                 end = PA_INVALID_INDEX).
  { unfold owner_hooks in Hh.
    destruct (ad_hook d); try reflexivity; exfalso; apply Hh;
      repeat (first [by left | right]). }
  rewrite Hidx.
  destruct (decide _) as [E | E]; split; [auto | auto | discriminate | intros; congruence].
Qed.

Lemma owner_check_other_hooks_witness :
  rule_check_owner Scenarios.core0 (mk_access_data 0 5 PA_ACCESS_HOOK_CONNECT_RECORD 0 0)
    = PA_HOOK_STOP.
Proof.
  destruct (owner_check_other_hooks Scenarios.core0
              (mk_access_data 0 5 PA_ACCESS_HOOK_CONNECT_RECORD 0 0)
              ltac:(vm_compute; intros H; repeat (apply elem_of_cons in H; destruct H as [H | H];
                                                  [discriminate |]); by apply not_elem_of_nil in H))
    as [H _].
  destruct (rule_check_owner _ _) eqn:E; [| reflexivity | discriminate].
  specialize (H eq_refl). vm_compute in H. discriminate.
Defined.


(** X7: in both modules, a subscription event of an unknown type, or a NEW event of a facility without a get-info hook, is blocked and changes no state. *)
Theorem filter_event_unclassified_blocked :
  forall (be : Flatpak.bus_env) (u : Flatpak.userdata) (ua : Access.userdata) (d : access_data),
    Flatpak.clients_consistent u ->
    event_type (ad_event d) = PA_SUBSCRIPTION_EVENT_TYPE_MASK \/
    (event_type (ad_event d) = PA_SUBSCRIPTION_EVENT_NEW /\
     event_hook (event_facility (ad_event d)) = None) ->
    Flatpak.filter_event be u d = Some (PA_HOOK_STOP, u) /\
    Access.filter_event ua d = Some (PA_HOOK_STOP, ua).
Proof.
  intros be u ua d [Hcons _] Ht.
  unfold Flatpak.filter_event, Access.filter_event, Access.client_data_get.
  split.
  - destruct (Flatpak.clients u !! ad_client_index d) as [p |] eqn:Hp; [| reflexivity].
    destruct (Hcons _ _ Hp) as [cd [Hcd _]]. rewrite Hcd.
    destruct Ht as [Ht | [Ht Hh]]; rewrite Ht; [reflexivity |].
    simpl. unfold Flatpak.filter_new. rewrite Hh. reflexivity.
  - destruct (Access.clients ua !! ad_client_index d) as [cd |]; [| reflexivity].
    destruct Ht as [Ht | [Ht Hh]]; rewrite Ht; [reflexivity |].
    simpl. unfold Access.filter_new. rewrite Hh. reflexivity.
Qed.

(** X8: in both modules, a CHANGE for a pair the client has seen returns OK, and a REMOVE for a pair it has not seen returns STOP, neither changing the state. *)
Theorem filter_event_seen_pairs :
  forall (be : Flatpak.bus_env) (u : Flatpak.userdata) (p : N) (cd : Flatpak.client_data)
         (ua : Access.userdata) (cda : Access.client_data) (d : access_data),
    Flatpak.clients u !! ad_client_index d = Some p ->
    Flatpak.heap u !! p = Some cd ->
    Access.clients ua !! ad_client_index d = Some cda ->
    let f := event_facility (ad_event d) in
    (event_type (ad_event d) = PA_SUBSCRIPTION_EVENT_CHANGE ->
       find_event (Flatpak.cd_events cd) f (ad_object_index d) <> None ->
       Flatpak.filter_event be u d = Some (PA_HOOK_OK, u)) /\
    (event_type (ad_event d) = PA_SUBSCRIPTION_EVENT_CHANGE ->
       find_event (Access.cd_events cda) f (ad_object_index d) <> None ->
       Access.filter_event ua d = Some (PA_HOOK_OK, ua)) /\
    (event_type (ad_event d) = PA_SUBSCRIPTION_EVENT_REMOVE ->
       find_event (Flatpak.cd_events cd) f (ad_object_index d) = None ->
       Flatpak.filter_event be u d = Some (PA_HOOK_STOP, u)) /\
    (event_type (ad_event d) = PA_SUBSCRIPTION_EVENT_REMOVE ->
       find_event (Access.cd_events cda) f (ad_object_index d) = None ->
       Access.filter_event ua d = Some (PA_HOOK_STOP, ua)).
Proof.
  intros be u p cd ua cda d Hp Hcd Hcda f.
  unfold Flatpak.filter_event, Access.filter_event, Access.client_data_get.
  rewrite Hp, Hcd, Hcda. fold f.
  split; [| split; [| split]]; intros Ht Hf; rewrite Ht; simpl.
  - destruct (find_event _ _ _); [reflexivity | congruence].
  - destruct (find_event _ _ _); [reflexivity | congruence].
  - unfold remove_event. rewrite Hf. reflexivity.
  - unfold remove_event. rewrite Hf. reflexivity.
Qed.

Module EntryProofs.
Import Flatpak.

Lemma ep_refl (u : userdata) : entries_preserved u u.
Proof. repeat split. Qed.

Lemma ep_trans (u1 u2 u3 : userdata) :
  entries_preserved u1 u2 -> entries_preserved u2 u3 -> entries_preserved u1 u3.
Proof.
  intros [C1 [N1 [P1 [D1 [Q1 H1]]]]] [C2 [N2 [P2 [D2 [Q2 H2]]]]].
  repeat split; try congruence; intros p; rewrite H2; apply H1.
Qed.

Lemma ep_put (u : userdata) (p : N) (cd cd' : client_data) :
  heap u !! p = Some cd -> cd_index cd' = cd_index cd -> cd_policy cd' = cd_policy cd ->
  entries_preserved u (put_cd u p cd').
Proof.
  intros Hp Hi Hpo. repeat split.
  intros q. simpl. destruct (decide (q = p)) as [-> | Hne].
  - rewrite lookup_insert_eq, Hp. simpl. congruence.
  - rewrite lookup_insert_ne by congruence. reflexivity.
Qed.

Lemma ep_with_filters (u : userdata) (fs : list N) : entries_preserved u (with_filters u fs).
Proof. repeat split. Qed.

Lemma ep_with_portal_calls (u : userdata) (cs : list portal_call) :
  entries_preserved u (with_portal_calls u cs).
Proof. repeat split. Qed.

Lemma ep_with_finished (u : userdata) (fin : list (N * bool)) :
  entries_preserved u (with_finished u fin).
Proof. repeat split. Qed.

Lemma ep_heap_live (u u' : userdata) (p : N) (cd : client_data) :
  entries_preserved u u' -> heap u !! p = Some cd ->
  exists cd', heap u' !! p = Some cd' /\ cd_index cd' = cd_index cd /\ cd_policy cd' = cd_policy cd.
Proof.
  intros [_ [_ [_ [_ [_ H]]]]] Hp. specialize (H p). rewrite Hp in H. simpl in H.
  destruct (heap u' !! p) as [cd' |]; [| discriminate].
  simpl in H. injection H as Hi Hpo. eauto.
Qed.

Lemma consistent_ep (u u' : userdata) :
  clients_consistent u -> entries_preserved u u' -> clients_consistent u'.
Proof.
  intros [Hc Hb] E. pose proof E as [C [Np [_ [_ [_ H]]]]]. split.
  - intros i p Hi. rewrite C in Hi. destruct (Hc i p Hi) as [cd [Hcd Hidx]].
    destruct (ep_heap_live u u' p cd E Hcd) as [cd' [Hcd' [Hi' _]]].
    exists cd'. split; [exact Hcd' | congruence].
  - intros p cd' Hp. specialize (H p). rewrite Hp in H. simpl in H.
    destruct (heap u !! p) as [cd |] eqn:Hq; [| discriminate].
    rewrite Np. exact (Hb p cd Hq).
Qed.

Lemma consistent_put (u : userdata) (p : N) (cd cd' : client_data) :
  clients_consistent u -> heap u !! p = Some cd -> cd_index cd' = cd_index cd ->
  clients_consistent (put_cd u p cd').
Proof.
  intros [Hc Hb] Hp Hi. split; simpl.
  - intros j q Hj. destruct (Hc j q Hj) as [cdq [Hcdq Hidx]].
    destruct (decide (q = p)) as [-> | Hne].
    + exists cd'. rewrite lookup_insert_eq. split; [reflexivity | congruence].
    + exists cdq. rewrite lookup_insert_ne by congruence. split; assumption.
  - intros q cdq Hq. destruct (decide (q = p)) as [-> | Hne].
    + exact (Hb p cd Hp).
    + rewrite lookup_insert_ne in Hq by congruence. exact (Hb q cdq Hq).
Qed.

Lemma ep_rule_check_portal (be : bus_env) (u u' : userdata) (d : access_data) (r : hook_result) :
  rule_check_portal be u d = Some (r, u') -> entries_preserved u u'.
Proof.
  intros Hrun. unfold rule_check_portal in Hrun.
  destruct (clients u !! ad_client_index d) as [q |]; [| discriminate].
  destruct (heap u !! q) as [cdq |] eqn:Hq; [| discriminate].
  destruct (checked _).
  { injection Hrun as _ <-. apply ep_refl. }
  pose proof (ep_put u q cdq (set_access_data cdq (Some d)) Hq eq_refl eq_refl) as E1.
  destruct (negb (be_new_ok be)); [injection Hrun as _ <-; exact E1 |].
  destruct (portal_device _); [| discriminate].
  destruct (negb (be_append_ok be)); [injection Hrun as _ <-; exact E1 |].
  destruct (be_reply be) as [[handle |] |]; [destruct (be_match_ok be) | |];
    injection Hrun as _ <-; exact E1.
Qed.

Lemma ep_check_access (be : bus_env) (u u' : userdata) (d : access_data) (r : hook_result) :
  check_access be u d = Some (r, u') -> entries_preserved u u'.
Proof.
  intros Hrun. unfold check_access in Hrun.
  destruct (clients u !! _); [| injection Hrun as _ <-; apply ep_refl].
  destruct (heap u !! _); [| discriminate].
  destruct (policies u !! _); [| discriminate].
  destruct (_ (ad_hook d)) as [rule |]; [| injection Hrun as _ <-; apply ep_refl].
  destruct rule; simpl in Hrun; try (injection Hrun as _ <-; apply ep_refl).
  exact (ep_rule_check_portal be u u' d r Hrun).
Qed.

Lemma ep_filter_event (be : bus_env) (u u' : userdata) (d : access_data) (r : hook_result) :
  filter_event be u d = Some (r, u') -> entries_preserved u u'.
Proof.
  intros Hrun. unfold filter_event in Hrun.
  destruct (clients u !! ad_client_index d) as [q |]; [| injection Hrun as _ <-; apply ep_refl].
  destruct (heap u !! q) as [cdq |] eqn:Hq; [| discriminate].
  assert (Hnew : forall r' u1, filter_new be u q d (event_facility (ad_event d)) = Some (r', u1) ->
                               entries_preserved u u1).
  { intros r' u1 Hn. unfold filter_new in Hn.
    destruct (event_hook _); [| injection Hn as _ <-; apply ep_refl].
    destruct (check_access be u _) as [[r0 u0] |] eqn:Hc; [| discriminate].
    pose proof (ep_check_access be u u0 _ r0 Hc) as E0.
    destruct r0; try (injection Hn as _ <-; exact E0).
    destruct (heap u0 !! q) as [cd0 |] eqn:Hq0; [| discriminate].
    injection Hn as _ <-. apply (ep_trans _ _ _ E0). apply (ep_put u0 q cd0); [exact Hq0 | reflexivity | reflexivity]. }
  destruct (decide (event_type (ad_event d) = PA_SUBSCRIPTION_EVENT_REMOVE)).
  { destruct (remove_event _ _ _) as [[|] evs].
    - injection Hrun as _ <-. apply (ep_put u q cdq); [exact Hq | reflexivity | reflexivity].
    - injection Hrun as _ <-. apply ep_refl. }
  destruct (decide (event_type (ad_event d) = PA_SUBSCRIPTION_EVENT_CHANGE)).
  { destruct (find_event _ _ _); [injection Hrun as _ <-; apply ep_refl | exact (Hnew r u' Hrun)]. }
  destruct (decide (event_type (ad_event d) = PA_SUBSCRIPTION_EVENT_NEW));
    [exact (Hnew r u' Hrun) | injection Hrun as _ <-; apply ep_refl].
Qed.

Lemma ep_access_hook_cb (be : bus_env) (u u' : userdata) (d : access_data) (r : hook_result) :
  access_hook_cb be u d = Some (r, u') -> entries_preserved u u'.
Proof.
  unfold access_hook_cb. destruct (decide _).
  - apply ep_filter_event.
  - apply ep_check_access.
Qed.

Lemma ep_portal_response (u u' : userdata) (q : N) (msg : dbus_message) (res : DBusHandlerResult) :
  portal_response u q msg = Some (res, u') -> entries_preserved u u'.
Proof.
  unfold portal_response. destruct (heap u !! q) as [cd |] eqn:Hq; [| discriminate].
  destruct (dbus_message_is_signal _ _ _); [| intros H; injection H as _ <-; apply ep_refl].
  destruct (cd_access_data cd) as [d |]; [| discriminate].
  intros H; injection H as _ <-.
  apply (ep_put (with_filters u _) q cd); [exact Hq | reflexivity | reflexivity].
Qed.

Lemma ep_run_filters (fs : list N) (u u' : userdata) (msg : dbus_message) :
  run_filters u fs msg = Some u' -> entries_preserved u u'.
Proof.
  revert u. induction fs as [| q fs IH]; intros u Hrun; simpl in Hrun.
  - injection Hrun as <-. apply ep_refl.
  - destruct (portal_response u q msg) as [[res u1] |] eqn:Hp; [| discriminate].
    pose proof (ep_portal_response u u1 q msg res Hp) as E1.
    destruct res; [injection Hrun as <-; exact E1 | exact (ep_trans _ _ _ E1 (IH u1 Hrun))].
Qed.

Lemma consistent_client_auth (select : userdata -> pa_client -> N) (u u' : userdata)
      (cl : pa_client) :
  clients_consistent u -> client_auth_cb_sel select u cl = Some u' -> clients_consistent u'.
Proof.
  intros Hc. unfold client_auth_cb_sel.
  destruct (clients u !! cl_index cl) as [q |]; [| intros H; injection H as <-; exact Hc].
  destruct (heap u !! q) as [cd |] eqn:Hq; [| discriminate].
  intros H; injection H as <-. apply (consistent_put u q cd); [exact Hc | exact Hq | reflexivity].
Qed.

Lemma consistent_init (c : pa_core) : clients_consistent (pa__init c).
Proof.
  split; intros ? ? H; simpl in H; rewrite lookup_empty in H; discriminate.
Qed.

Lemma consistent_client_put (select : userdata -> pa_client -> N) (u : userdata) (cl : pa_client) :
  clients_consistent u -> clients_consistent (client_put_cb_sel select u cl).
Proof.
  intros [Hc Hb]. unfold client_put_cb_sel. split; simpl.
  - intros i q Hi.
    assert (Hold : forall j q', clients u !! j = Some q' ->
                     exists cd, <[next_ptr u := mk_client_data (cl_index cl) (select u cl) (cl_pid cl)
                                                empty_cache None []]> (heap u) !! q' = Some cd /\
                                cd_index cd = j).
    { intros j q' Hj. destruct (Hc j q' Hj) as [cd [Hcd Hidx]].
      pose proof (Hb q' cd Hcd) as Hlt.
      exists cd. rewrite lookup_insert_ne by lia. split; assumption. }
    destruct (clients u !! cl_index cl) eqn:Hex; [exact (Hold i q Hi) |].
    destruct (decide (i = cl_index cl)) as [-> | Hne].
    + rewrite lookup_insert_eq in Hi. injection Hi as <-.
      eexists. rewrite lookup_insert_eq. split; reflexivity.
    + rewrite lookup_insert_ne in Hi by congruence. exact (Hold i q Hi).
  - intros q cd Hq. destruct (decide (q = next_ptr u)) as [-> | Hne]; [lia |].
    rewrite lookup_insert_ne in Hq by congruence. pose proof (Hb q cd Hq). lia.
Qed.

Lemma consistent_client_unlink (u : userdata) (cl : pa_client) :
  clients_consistent u -> clients_consistent (client_unlink_cb u cl).
Proof.
  intros [Hc Hb]. unfold client_unlink_cb.
  destruct (clients u !! cl_index cl) as [p |] eqn:Hp; [| split; assumption].
  destruct (Hc _ _ Hp) as [cdp [Hcdp Hip]].
  split; simpl.
  - intros i q Hi. destruct (decide (i = cl_index cl)) as [-> | Hne].
    + rewrite lookup_delete_eq in Hi. discriminate.
    + rewrite lookup_delete_ne in Hi by congruence.
      destruct (Hc i q Hi) as [cd [Hcd Hidx]].
      destruct (decide (q = p)) as [-> | Hqp].
      * rewrite Hcdp in Hcd. injection Hcd as <-. congruence.
      * exists cd. rewrite lookup_delete_ne by congruence. split; assumption.
  - intros q cd Hq. destruct (decide (q = p)) as [-> | Hqp].
    + rewrite lookup_delete_eq in Hq. discriminate.
    + rewrite lookup_delete_ne in Hq by congruence. exact (Hb q cd Hq).
Qed.

Lemma consistent_step (select : userdata -> pa_client -> N) (u u' : userdata) (ev : event)
      (r : option hook_result) :
  clients_consistent u -> step_sel select u ev = Some (r, u') -> clients_consistent u'.
Proof.
  intros Hc Hstep. destruct ev as [be d | msg | cl | cl | cl | cl]; simpl in Hstep.
  - destruct (access_hook_cb be u d) as [[r0 u1] |] eqn:Ha; [| discriminate].
    injection Hstep as _ <-. exact (consistent_ep u u1 Hc (ep_access_hook_cb be u u1 d r0 Ha)).
  - destruct (dispatch_signal u msg) as [u1 |] eqn:Hd; [| discriminate].
    injection Hstep as _ <-. exact (consistent_ep u u1 Hc (ep_run_filters _ u u1 msg Hd)).
  - injection Hstep as _ <-. by apply consistent_client_put.
  - destruct (client_auth_cb_sel select u cl) as [u1 |] eqn:Ha; [| discriminate].
    injection Hstep as _ <-. exact (consistent_client_auth select u u1 cl Hc Ha).
  - unfold client_proplist_changed_cb_sel in Hstep.
    destruct (client_auth_cb_sel select u cl) as [u1 |] eqn:Ha; [| discriminate].
    injection Hstep as _ <-. exact (consistent_client_auth select u u1 cl Hc Ha).
  - injection Hstep as _ <-. by apply consistent_client_unlink.
Qed.

Lemma consistent_run (select : userdata -> pa_client -> N) (evs : list event) (u u' : userdata)
      (rs : list (option hook_result)) :
  clients_consistent u -> run_sel select u evs = Some (rs, u') -> clients_consistent u'.
Proof.
  revert u rs. induction evs as [| ev evs IH]; intros u rs Hc Hrun; simpl in Hrun.
  - injection Hrun as _ <-. exact Hc.
  - destruct (step_sel select u ev) as [[r u1] |] eqn:Hs; [| discriminate].
    destruct (run_sel select u1 evs) as [[rs1 u2] |] eqn:Hr; [| discriminate].
    injection Hrun as _ <-. exact (IH u1 rs1 (consistent_step select u u1 ev r Hc Hs) Hr).
Qed.

End EntryProofs.

(** X9: along every trace from [pa__init], whatever the policy selection, the hashmap of clients points only at live entries keyed by their own index, all below the next address. *)
Theorem clients_map_consistent_along_traces :
  forall (select : Flatpak.userdata -> Flatpak.pa_client -> N) (c : pa_core)
         (evs : list Flatpak.event) (rs : list (option hook_result)) (u' : Flatpak.userdata),
    Flatpak.run_sel select (Flatpak.pa__init c) evs = Some (rs, u') ->
    Flatpak.clients_consistent u'.
Proof.
  intros select c evs rs u' Hrun.
  exact (EntryProofs.consistent_run select evs _ u' rs (EntryProofs.consistent_init c) Hrun).
Qed.

Module QuietProofs.
Import Flatpak.

Lemma default_policy_no_portal (h : access_hook) :
  exists r, flatpak_default_policy h = Some r /\ r <> R_check_portal.
Proof. destruct h; vm_compute; eexists; split; first [reflexivity | discriminate]. Qed.

Lemma np_init (c : pa_core) : no_portal_state (pa__init c).
Proof.
  split; [apply EntryProofs.consistent_init |].
  split; [reflexivity |].
  split; [intros p cd H; simpl in H; rewrite lookup_empty in H; discriminate |].
  repeat split.
Qed.

Lemma np_check_access (be : bus_env) (u : userdata) (d : access_data) :
  no_portal_state u -> exists r, check_access be u d = Some (r, u).
Proof.
  intros [[Hc _] [Hpol [Hcd _]]]. unfold check_access.
  destruct (clients u !! ad_client_index d) as [p |] eqn:Hp; [| eexists; reflexivity].
  destruct (Hc _ _ Hp) as [cd [Hcdp _]]. rewrite Hcdp.
  unfold access_policy in *. rewrite (Hcd p cd Hcdp), Hpol.
  destruct (default_policy_no_portal (ad_hook d)) as [r [Hr Hnp]]. rewrite Hr.
  destruct r; [eexists; reflexivity .. | contradiction].
Qed.

Lemma np_put (u : userdata) (p : N) (cd cd' : client_data) :
  no_portal_state u -> heap u !! p = Some cd ->
  cd_index cd' = cd_index cd -> cd_policy cd' = default_policy u ->
  no_portal_state (put_cd u p cd').
Proof.
  intros [Hc [Hpol [Hcd Hrest]]] Hp Hi Hpo.
  split; [exact (EntryProofs.consistent_put u p cd cd' Hc Hp Hi) |].
  split; [exact Hpol |]. split; [| exact Hrest].
  intros q cdq Hq. simpl in Hq. destruct (decide (q = p)) as [-> | Hne].
  - rewrite lookup_insert_eq in Hq. injection Hq as <-. exact Hpo.
  - rewrite lookup_insert_ne in Hq by congruence. exact (Hcd q cdq Hq).
Qed.

Lemma np_filter_event (be : bus_env) (u : userdata) (d : access_data) :
  no_portal_state u ->
  exists r u', filter_event be u d = Some (r, u') /\ no_portal_state u' /\
               default_policy u' = default_policy u.
Proof.
  intros Hnp. pose proof Hnp as [[Hc _] [_ [Hcd _]]].
  unfold filter_event.
  destruct (clients u !! ad_client_index d) as [p |] eqn:Hp; [| eauto].
  destruct (Hc _ _ Hp) as [cd [Hcdp _]]. rewrite Hcdp.
  assert (Hput : forall evs, no_portal_state (put_cd u p (set_events cd evs)) /\
                             default_policy (put_cd u p (set_events cd evs)) = default_policy u).
  { intros evs. split; [| reflexivity].
    apply (np_put u p cd); [exact Hnp | exact Hcdp | reflexivity | exact (Hcd p cd Hcdp)]. }
  assert (Hnew : exists r u', filter_new be u p d (event_facility (ad_event d)) = Some (r, u') /\
                              no_portal_state u' /\ default_policy u' = default_policy u).
  { unfold filter_new. destruct (event_hook _) as [h |]; [| eauto].
    destruct (np_check_access be u (derived_request d h) Hnp) as [r Hr]. rewrite Hr.
    destruct r; [| eauto ..].
    rewrite Hcdp. eauto. }
  destruct (decide (event_type (ad_event d) = PA_SUBSCRIPTION_EVENT_REMOVE)).
  { destruct (remove_event _ _ _) as [[|] evs]; eauto. }
  destruct (decide (event_type (ad_event d) = PA_SUBSCRIPTION_EVENT_CHANGE)).
  { destruct (find_event _ _ _); eauto. }
  destruct (decide (event_type (ad_event d) = PA_SUBSCRIPTION_EVENT_NEW)); eauto.
Qed.

Lemma np_step (u : userdata) (ev : event) :
  no_portal_state u ->
  exists r u', step u ev = Some (r, u') /\ no_portal_state u' /\ default_policy u' = default_policy u.
Proof.
  intros Hnp. pose proof Hnp as [[Hc Hb] [Hpol [Hcd [Hf [Hpc Hfin]]]]].
  unfold step. destruct ev as [be d | msg | cl | cl | cl | cl]; simpl.
  - unfold access_hook_cb. destruct (decide _).
    + destruct (np_filter_event be u d Hnp) as [r [u' [-> Hu']]]. eauto.
    + destruct (np_check_access be u d Hnp) as [r ->]. eauto.
  - unfold dispatch_signal. rewrite Hf. simpl. eauto.
  - eexists _, _. split; [reflexivity |]. split; [| reflexivity].
    split; [exact (EntryProofs.consistent_client_put _ u cl (conj Hc Hb)) |].
    split; [exact Hpol |]. split; [| exact (conj Hf (conj Hpc Hfin))].
    intros q cdq Hq. simpl in Hq. destruct (decide (q = next_ptr u)) as [-> | Hne].
    + rewrite lookup_insert_eq in Hq. injection Hq as <-. reflexivity.
    + rewrite lookup_insert_ne in Hq by congruence. exact (Hcd q cdq Hq).
  - unfold client_auth_cb_sel.
    destruct (clients u !! cl_index cl) as [p |] eqn:Hp; [| eauto].
    destruct (Hc _ _ Hp) as [cd [Hcdp _]]. rewrite Hcdp.
    eexists _, _. split; [reflexivity |]. split; [| reflexivity].
    apply (np_put u p cd); [exact Hnp | exact Hcdp | reflexivity | reflexivity].
  - unfold client_proplist_changed_cb_sel, client_auth_cb_sel.
    destruct (clients u !! cl_index cl) as [p |] eqn:Hp; [| eauto].
    destruct (Hc _ _ Hp) as [cd [Hcdp _]]. rewrite Hcdp.
    eexists _, _. split; [reflexivity |]. split; [| reflexivity].
    apply (np_put u p cd); [exact Hnp | exact Hcdp | reflexivity | reflexivity].
  - eexists _, _. split; [reflexivity |].
    unfold client_unlink_cb.
    pose proof (EntryProofs.consistent_client_unlink u cl (conj Hc Hb)) as Hc'.
    unfold client_unlink_cb in Hc'.
    destruct (clients u !! cl_index cl) as [p |]; [| split; [exact Hnp | reflexivity]].
    split; [| reflexivity].
    split; [exact Hc' |].
    split; [exact Hpol |]. split; [| exact (conj Hf (conj Hpc Hfin))].
    intros q cdq Hq. simpl in Hq. destruct (decide (q = p)) as [-> | Hne].
    + rewrite lookup_delete_eq in Hq. discriminate.
    + rewrite lookup_delete_ne in Hq by congruence. exact (Hcd q cdq Hq).
Qed.

Lemma np_run (evs : list event) (u : userdata) :
  no_portal_state u ->
  exists rs u', run u evs = Some (rs, u') /\ no_portal_state u' /\ default_policy u' = default_policy u.
Proof.
  revert u. induction evs as [| ev evs IH]; intros u Hnp.
  - eexists _, _. split; [reflexivity | split; [exact Hnp | reflexivity]].
  - destruct (np_step u ev Hnp) as [r [u1 [Hs [Hnp1 Hd1]]]].
    destruct (IH u1 Hnp1) as [rs [u2 [Hr [Hnp2 Hd2]]]].
    exists (r :: rs), u2. split; [| split; [exact Hnp2 | congruence]].
    unfold run. simpl. unfold step in Hs. rewrite Hs. unfold run in Hr. rewrite Hr. reflexivity.
Qed.

End QuietProofs.

(** X10: the module as written never registers a response filter, never calls the portal and never calls [async_finish_cb], and binds every client to the default policy. *)
Theorem as_written_never_asks_portal :
  forall (c : pa_core) (evs : list Flatpak.event),
    exists rs u',
      Flatpak.run (Flatpak.pa__init c) evs = Some (rs, u') /\
      Flatpak.filters u' = [] /\ Flatpak.portal_calls u' = [] /\ Flatpak.finished u' = [] /\
      forall p cd, Flatpak.heap u' !! p = Some cd -> Flatpak.cd_policy cd = 0%N.
Proof.
  intros c evs.
  destruct (QuietProofs.np_run evs _ (QuietProofs.np_init c))
    as [rs [u' [Hr [[_ [_ [Hcd [Hf [Hpc Hfin]]]]] Hdef]]]].
  exists rs, u'. split; [exact Hr |]. split; [exact Hf |]. split; [exact Hpc |]. split; [exact Hfin |].
  intros p cd Hp. rewrite (Hcd p cd Hp), Hdef. reflexivity.
Qed.

Module HookProofs.
Import Flatpak.



Section Reach.
Variable c : pa_core.









End Reach.
End HookProofs.


(** X12: in module-access, after a NEW event passes the filter, a CHANGE for the same object passes without changing the state, and a REMOVE for it passes and gives back the state before the NEW. *)
Theorem access_new_then_change_remove :
  forall (u u1 : Access.userdata) (cd : Access.client_data) (d d' : access_data),
    Access.clients u !! ad_client_index d = Some cd ->
    event_type (ad_event d) = PA_SUBSCRIPTION_EVENT_NEW ->
    Access.filter_event u d = Some (PA_HOOK_OK, u1) ->
    ad_client_index d' = ad_client_index d ->
    ad_object_index d' = ad_object_index d ->
    event_facility (ad_event d') = event_facility (ad_event d) ->
    (event_type (ad_event d') = PA_SUBSCRIPTION_EVENT_CHANGE ->
       Access.filter_event u1 d' = Some (PA_HOOK_OK, u1)) /\
    (event_type (ad_event d') = PA_SUBSCRIPTION_EVENT_REMOVE ->
       Access.filter_event u1 d' = Some (PA_HOOK_OK, u)).
Proof.
  intros u u1 cd d d' Hcd Ht Hf Hi Ho Hfac.
  unfold Access.filter_event, Access.client_data_get in Hf. rewrite Hcd, Ht in Hf.
  simpl in Hf. unfold Access.filter_new in Hf.
  destruct (event_hook (event_facility (ad_event d))) as [h |]; [| discriminate].
  destruct (Access.check_access u _) as [[] |]; try discriminate.
  injection Hf as <-.
  assert (Hm : event_matches (event_facility (ad_event d)) (ad_object_index d)
                 (mk_event_item (event_facility (ad_event d)) (ad_object_index d)) = true)
    by (by apply SeenList.event_matches_iff).
  unfold Access.filter_event, Access.client_data_get. rewrite Hi, Hfac, Ho.
  simpl. rewrite lookup_insert_eq. simpl.
  split; intros Ht'; rewrite Ht'; simpl.
  - unfold add_event. simpl. rewrite Hm. reflexivity.
  - unfold remove_event, add_event. simpl. rewrite Hm.
    unfold Access.set_client. simpl. rewrite insert_insert_eq.
    destruct cd as [ci pol evs]. simpl. rewrite insert_id by exact Hcd.
    destruct u. reflexivity.
Qed.

Module AccessProofs.

Lemma filter_event_frame :
  forall (u u' : Access.userdata) (d : access_data) (r : hook_result),
    Access.filter_event u d = Some (r, u') ->
    Access.core u' = Access.core u /\ Access.policies u' = Access.policies u /\
    Access.default_policy u' = Access.default_policy u /\
    (forall j, j <> ad_client_index d -> Access.clients u' !! j = Access.clients u !! j) /\
    (forall cd', Access.clients u' !! ad_client_index d = Some cd' ->
       exists cd, Access.clients u !! ad_client_index d = Some cd /\
                  Access.cd_index cd' = Access.cd_index cd /\
                  Access.cd_policy cd' = Access.cd_policy cd).
Proof.
  intros u u' d r Hf.
  assert (Hset : forall cd evs, Access.clients u !! ad_client_index d = Some cd ->
            let u1 := Access.set_client u (ad_client_index d)
                        (Access.mk_client_data (Access.cd_index cd) (Access.cd_policy cd) evs) in
            Access.core u1 = Access.core u /\ Access.policies u1 = Access.policies u /\
            Access.default_policy u1 = Access.default_policy u /\
            (forall j, j <> ad_client_index d -> Access.clients u1 !! j = Access.clients u !! j) /\
            (forall cd', Access.clients u1 !! ad_client_index d = Some cd' ->
               exists cd, Access.clients u !! ad_client_index d = Some cd /\
                          Access.cd_index cd' = Access.cd_index cd /\
                          Access.cd_policy cd' = Access.cd_policy cd)).
  { intros cd evs Hcd u1. subst u1. simpl.
    split; [reflexivity |]. split; [reflexivity |]. split; [reflexivity |].
    split; [intros j Hj; by rewrite lookup_insert_ne |].
    intros cd' Hcd'. rewrite lookup_insert_eq in Hcd'. injection Hcd' as <-. eauto. }
  unfold Access.filter_event, Access.client_data_get in Hf.
  destruct (Access.clients u !! ad_client_index d) as [cd |] eqn:Hcd;
    [| injection Hf as _ <-; repeat split; try (intros; reflexivity); intros cd' Hc'; congruence].
  assert (Hnew : forall r' u1, Access.filter_new u cd d (event_facility (ad_event d)) = Some (r', u1) ->
            u1 = u \/ exists evs, u1 = Access.set_client u (ad_client_index d)
                        (Access.mk_client_data (Access.cd_index cd) (Access.cd_policy cd) evs)).
  { intros r' u1 Hn. unfold Access.filter_new in Hn.
    destruct (event_hook _); [| injection Hn as _ <-; by left].
    destruct (Access.check_access u _) as [[] |]; try discriminate;
      injection Hn as _ <-; [right; eauto | left; reflexivity | left; reflexivity]. }
  assert (Hcase : u' = u \/ exists evs, u' = Access.set_client u (ad_client_index d)
                        (Access.mk_client_data (Access.cd_index cd) (Access.cd_policy cd) evs)).
  { destruct (decide (event_type (ad_event d) = PA_SUBSCRIPTION_EVENT_REMOVE)).
    { destruct (remove_event _ _ _) as [[|] evs]; injection Hf as _ <-; [right; eauto | left; reflexivity]. }
    destruct (decide (event_type (ad_event d) = PA_SUBSCRIPTION_EVENT_CHANGE)).
    { destruct (find_event _ _ _); [injection Hf as _ <-; by left | exact (Hnew r u' Hf)]. }
    destruct (decide (event_type (ad_event d) = PA_SUBSCRIPTION_EVENT_NEW));
      [exact (Hnew r u' Hf) | injection Hf as _ <-; by left]. }
  destruct Hcase as [-> | [evs ->]]; [| exact (Hset cd evs eq_refl)].
  repeat split; try (intros; reflexivity). intros cd' Hc'. exists cd'. split; [congruence | auto].
Qed.

Lemma default_access_no_portal (h : access_hook) :
  exists r, Access.default_access_policy h = Some r /\ r <> R_check_portal.
Proof. destruct h; vm_compute; eexists; split; first [reflexivity | discriminate]. Qed.

Lemma check_access_some (u : Access.userdata) (d : access_data) :
  Access.policies u = {[ 0%N := Access.default_access_policy ]} ->
  (forall i cd, Access.clients u !! i = Some cd -> Access.cd_policy cd = 0%N) ->
  exists r, Access.check_access u d = Some r.
Proof.
  intros Hpol Hcd. unfold Access.check_access, Access.client_data_get.
  destruct (Access.clients u !! ad_client_index d) as [cd |] eqn:Hc; [| eauto].
  rewrite Hpol, (Hcd _ cd Hc).
  assert (H0 : ({[ 0%N := Access.default_access_policy ]} : gmap N access_policy) !! 0%N =
               Some Access.default_access_policy) by reflexivity.
  unfold access_policy in *. rewrite H0.
  destruct (default_access_no_portal (ad_hook d)) as [r [Hr Hnp]]. rewrite Hr.
  destruct r; [eexists; reflexivity .. | contradiction].
Qed.

Lemma step_some (u : Access.userdata) (ev : Access.event) :
  Access.policies u = {[ 0%N := Access.default_access_policy ]} ->
  Access.default_policy u = 0%N ->
  (forall i cd, Access.clients u !! i = Some cd -> Access.cd_policy cd = 0%N) ->
  exists r u', Access.step u ev = Some (r, u') /\
    Access.policies u' = {[ 0%N := Access.default_access_policy ]} /\
    Access.default_policy u' = 0%N /\
    (forall i cd, Access.clients u' !! i = Some cd -> Access.cd_policy cd = 0%N).
Proof.
  intros Hpol Hdef Hcd. destruct ev as [d | index | index | index]; simpl.
  - assert (Hfe : exists r u', Access.access_hook_cb u d = Some (r, u') /\
                    Access.policies u' = Access.policies u /\
                    Access.default_policy u' = Access.default_policy u /\
                    (forall i cd, Access.clients u' !! i = Some cd -> Access.cd_policy cd = 0%N)).
    { unfold Access.access_hook_cb. destruct (decide _).
      - assert (Hf : exists r u', Access.filter_event u d = Some (r, u')).
        { unfold Access.filter_event, Access.client_data_get.
          destruct (Access.clients u !! ad_client_index d) as [cd |]; [| eauto].
          assert (Hn : exists r u', Access.filter_new u cd d (event_facility (ad_event d)) = Some (r, u')).
          { unfold Access.filter_new. destruct (event_hook _) as [h |]; [| eauto].
            destruct (check_access_some u (derived_request d h) Hpol Hcd) as [r ->].
            destruct r; eauto. }
          destruct (decide (event_type (ad_event d) = PA_SUBSCRIPTION_EVENT_REMOVE)).
          { destruct (remove_event _ _ _) as [[|] evs]; eauto. }
          destruct (decide (event_type (ad_event d) = PA_SUBSCRIPTION_EVENT_CHANGE)).
          { destruct (find_event _ _ _); eauto. }
          destruct (decide (event_type (ad_event d) = PA_SUBSCRIPTION_EVENT_NEW)); eauto. }
        destruct Hf as [r [u' Hf]]. exists r, u'. split; [exact Hf |].
        destruct (filter_event_frame u u' d r Hf) as [_ [Hp [Hd [Hj Hi]]]].
        split; [exact Hp |]. split; [exact Hd |].
        intros i cd Hc. destruct (decide (i = ad_client_index d)) as [-> | Hne].
        + destruct (Hi cd Hc) as [cd0 [Hc0 [_ Hpo]]]. rewrite Hpo. exact (Hcd _ cd0 Hc0).
        + rewrite (Hj i Hne) in Hc. exact (Hcd i cd Hc).
      - destruct (check_access_some u d Hpol Hcd) as [r ->].
        exists r, u. split; [reflexivity |]. split; [reflexivity |]. split; [reflexivity | exact Hcd]. }
    destruct Hfe as [r [u' [-> [Hp [Hd Hc]]]]].
    eexists _, _. split; [reflexivity |]. split; [congruence |]. split; [congruence | exact Hc].
  - eexists _, _. split; [reflexivity |]. unfold Access.client_put_cb.
    destruct (Access.clients u !! index) eqn:Hex; [split; [exact Hpol | split; [exact Hdef | exact Hcd]] |].
    simpl. split; [exact Hpol |]. split; [exact Hdef |].
    intros i cd Hc. destruct (decide (i = index)) as [-> | Hne].
    + rewrite lookup_insert_eq in Hc. injection Hc as <-. exact Hdef.
    + rewrite lookup_insert_ne in Hc by congruence. exact (Hcd i cd Hc).
  - eexists _, _. split; [reflexivity |]. unfold Access.client_proplist_changed_cb, Access.client_data_get.
    destruct (Access.clients u !! index) as [cd0 |] eqn:Hex; [| split; [exact Hpol | split; [exact Hdef | exact Hcd]]].
    simpl. split; [exact Hpol |]. split; [exact Hdef |].
    intros i cd Hc. destruct (decide (i = index)) as [-> | Hne].
    + rewrite lookup_insert_eq in Hc. injection Hc as <-. exact Hdef.
    + rewrite lookup_insert_ne in Hc by congruence. exact (Hcd i cd Hc).
  - eexists _, _. split; [reflexivity |]. simpl.
    split; [exact Hpol |]. split; [exact Hdef |].
    intros i cd Hc. destruct (decide (i = index)) as [-> | Hne].
    + rewrite lookup_delete_eq in Hc. discriminate.
    + rewrite lookup_delete_ne in Hc by congruence. exact (Hcd i cd Hc).
Qed.

Lemma run_some (evs : list Access.event) (u : Access.userdata) :
  Access.policies u = {[ 0%N := Access.default_access_policy ]} ->
  Access.default_policy u = 0%N ->
  (forall i cd, Access.clients u !! i = Some cd -> Access.cd_policy cd = 0%N) ->
  exists rs u', Access.run u evs = Some (rs, u') /\
    (forall i cd, Access.clients u' !! i = Some cd -> Access.cd_policy cd = 0%N).
Proof.
  revert u. induction evs as [| ev evs IH]; intros u Hpol Hdef Hcd.
  - eexists _, _. split; [reflexivity | exact Hcd].
  - destruct (step_some u ev Hpol Hdef Hcd) as [r [u1 [Hs [Hp1 [Hd1 Hc1]]]]].
    destruct (IH u1 Hp1 Hd1 Hc1) as [rs [u2 [Hr Hc2]]].
    exists (r :: rs), u2. split; [| exact Hc2]. simpl. rewrite Hs, Hr. reflexivity.
Qed.

End AccessProofs.

(** X13: module-access [filter_event] changes only the requesting client's seen list: core, policies, default policy, other entries, and the entry's index and policy stay as they were. *)
Theorem access_filter_event_frame :
  forall (u u' : Access.userdata) (d : access_data) (r : hook_result),
    Access.filter_event u d = Some (r, u') ->
    Access.core u' = Access.core u /\ Access.policies u' = Access.policies u /\
    Access.default_policy u' = Access.default_policy u /\
    (forall j, j <> ad_client_index d -> Access.clients u' !! j = Access.clients u !! j) /\
    (forall cd', Access.clients u' !! ad_client_index d = Some cd' ->
       exists cd, Access.clients u !! ad_client_index d = Some cd /\
                  Access.cd_index cd' = Access.cd_index cd /\
                  Access.cd_policy cd' = Access.cd_policy cd).
Proof. exact AccessProofs.filter_event_frame. Qed.

(** X14: module-access never fails on any sequence of events from [pa__init], and every client stays bound to policy 0. *)
Theorem access_run_never_fails :
  forall (c : pa_core) (evs : list Access.event),
    exists rs u', Access.run (Access.pa__init c) evs = Some (rs, u') /\
      forall i cd, Access.clients u' !! i = Some cd -> Access.cd_policy cd = 0%N.
Proof.
  intros c evs. apply AccessProofs.run_some; [reflexivity | reflexivity |].
  intros i cd H. simpl in H. rewrite lookup_empty in H. discriminate.
Qed.

(** X15: in module-access, [client_put_cb] for a new index creates an entry with the default policy and no seen pairs, and [client_unlink_cb] then gives back the state before it. *)
Theorem access_put_unlink_roundtrip :
  forall (u : Access.userdata) (i : N),
    Access.clients u !! i = None ->
    Access.clients (Access.client_put_cb u i) !! i =
      Some (Access.mk_client_data i (Access.default_policy u) []) /\
    Access.client_unlink_cb (Access.client_put_cb u i) i = u.
Proof.
  intros u i Hi. unfold Access.client_put_cb. rewrite Hi. simpl.
  split; [apply lookup_insert_eq |].
  unfold Access.client_unlink_cb, Access.client_data_remove. simpl.
  rewrite delete_insert_id by exact Hi. destruct u; reflexivity.
Qed.

Module FlatpakExtras.
Import Flatpak.

Lemma consistent_next_free (u : userdata) :
  clients_consistent u -> heap u !! next_ptr u = None.
Proof.
  intros [_ Hlt]. destruct (heap u !! next_ptr u) as [cd |] eqn:He; [| reflexivity].
  specialize (Hlt _ _ He). lia.
Qed.

Lemma run_filters_not_response (u : userdata) (fs : list N) (msg : dbus_message) :
  dbus_message_is_signal msg "org.freedesktop.portal.Request" "Response" = false ->
  (forall p, p ∈ fs -> exists cd, heap u !! p = Some cd) ->
  run_filters u fs msg = Some u.
Proof.
  intros Hnr. induction fs as [| p fs IH]; intros Hlive; [reflexivity |].
  simpl. unfold portal_response.
  destruct (Hlive p ltac:(apply elem_of_cons; left; reflexivity)) as [cd ->]. rewrite Hnr.
  apply IH. intros q Hq. apply Hlive. apply elem_of_cons. right. exact Hq.
Qed.

(** X16: on a consistent state, [client_auth_cb] always succeeds and only rebinds the client's policy and pid: the clients map, the filters, the portal calls, the finished calls, and every entry's index, portal cache, pending request and seen list stay as they were. *)
Theorem auth_keeps_portal_state :
  forall (select : userdata -> pa_client -> N) (u : userdata) (cl : pa_client),
    clients_consistent u ->
    exists u', client_auth_cb_sel select u cl = Some u' /\
      clients u' = clients u /\ next_ptr u' = next_ptr u /\
      filters u' = filters u /\ portal_calls u' = portal_calls u /\ finished u' = finished u /\
      (forall q, option_map (fun cd => (cd_index cd, cd_cached cd, cd_access_data cd, cd_events cd))
                   (heap u' !! q) =
                 option_map (fun cd => (cd_index cd, cd_cached cd, cd_access_data cd, cd_events cd))
                   (heap u !! q)) /\
      (forall p, clients u !! cl_index cl = Some p ->
         exists cd, heap u' !! p = Some cd /\ cd_policy cd = select u cl /\ cd_pid cd = cl_pid cl).
Proof.
  intros select u cl Hcons. unfold client_auth_cb_sel.
  destruct (clients u !! cl_index cl) as [p |] eqn:Hc.
  - destruct (proj1 Hcons _ _ Hc) as [cd [Hh _]]. rewrite Hh.
    eexists. split; [reflexivity |]. simpl.
    repeat split.
    + intros q. destruct (decide (q = p)) as [-> | Hne].
      * rewrite lookup_insert_eq, Hh. reflexivity.
      * rewrite lookup_insert_ne by congruence. reflexivity.
    + intros p' Hp'. injection Hp' as <-. eexists. rewrite lookup_insert_eq.
      split; [reflexivity |]. split; reflexivity.
  - eexists. split; [reflexivity |]. repeat split. intros p' Hp'. discriminate.
Qed.

(** X17: a second [client_put_cb] for a known index keeps the existing entry and map, and the newly allocated entry at [next_ptr] is stored but reachable from no index. *)
Theorem put_known_index_leaks :
  forall (select : userdata -> pa_client -> N) (u : userdata) (cl : pa_client) (p : N),
    clients_consistent u ->
    clients u !! cl_index cl = Some p ->
    clients (client_put_cb_sel select u cl) = clients u /\
    heap (client_put_cb_sel select u cl) !! p = heap u !! p /\
    heap (client_put_cb_sel select u cl) !! next_ptr u =
      Some (mk_client_data (cl_index cl) (select u cl) (cl_pid cl) empty_cache None []) /\
    next_ptr (client_put_cb_sel select u cl) = N.succ (next_ptr u) /\
    (forall i, clients (client_put_cb_sel select u cl) !! i <> Some (next_ptr u)).
Proof.
  intros select u cl p Hcons Hc. unfold client_put_cb_sel. simpl. rewrite Hc.
  destruct (proj1 Hcons _ _ Hc) as [cd [Hh _]].
  assert (Hlt := proj2 Hcons _ _ Hh).
  split; [reflexivity |]. split.
  { rewrite lookup_insert_ne by lia. reflexivity. }
  split; [apply lookup_insert_eq |]. split; [reflexivity |].
  intros i Hi. destruct (proj1 Hcons _ _ Hi) as [cd' [Hh' _]].
  rewrite (consistent_next_free u Hcons) in Hh'. discriminate.
Qed.

(** X18: [client_put_cb] for a new index followed by [client_unlink_cb] of that index restores the clients map, the heap, the filters and the portal and finished calls; only the next address has advanced. *)
Theorem put_unlink_roundtrip :
  forall (select : userdata -> pa_client -> N) (u : userdata) (cl cl' : pa_client),
    clients_consistent u ->
    clients u !! cl_index cl = None ->
    cl_index cl' = cl_index cl ->
    clients (client_unlink_cb (client_put_cb_sel select u cl) cl') = clients u /\
    heap (client_unlink_cb (client_put_cb_sel select u cl) cl') = heap u /\
    next_ptr (client_unlink_cb (client_put_cb_sel select u cl) cl') = N.succ (next_ptr u) /\
    filters (client_unlink_cb (client_put_cb_sel select u cl) cl') = filters u /\
    portal_calls (client_unlink_cb (client_put_cb_sel select u cl) cl') = portal_calls u /\
    finished (client_unlink_cb (client_put_cb_sel select u cl) cl') = finished u.
Proof.
  intros select u cl cl' Hcons Hc Hidx. unfold client_unlink_cb, client_put_cb_sel. simpl.
  rewrite Hc, Hidx. simpl. rewrite lookup_insert_eq. simpl.
  rewrite !delete_insert_id by (exact Hc || exact (consistent_next_free u Hcons)).
  repeat split.
Qed.

(** X19: [rule_check_portal] never touches the clients map or [async_finish_cb]; it registers a response filter for the client's entry exactly when it returns CANCEL, in which case it has sent one portal call; otherwise it sends at most one. *)
Theorem rule_check_portal_effects :
  forall (be : bus_env) (u u' : userdata) (d : access_data) (r : hook_result),
    rule_check_portal be u d = Some (r, u') ->
    exists p, clients u !! ad_client_index d = Some p /\
      clients u' = clients u /\ next_ptr u' = next_ptr u /\ finished u' = finished u /\
      (r = PA_HOOK_CANCEL ->
         filters u' = filters u ++ [p] /\ exists c, portal_calls u' = portal_calls u ++ [c]) /\
      (r <> PA_HOOK_CANCEL -> filters u' = filters u) /\
      (portal_calls u' = portal_calls u \/ exists c, portal_calls u' = portal_calls u ++ [c]).
Proof.
  intros be u u' d r H. unfold rule_check_portal in H.
  destruct (clients u !! ad_client_index d) as [p |] eqn:Hc; [| discriminate].
  exists p. split; [reflexivity |].
  destruct (heap u !! p) as [cd |] eqn:Hh; [| discriminate].
  destruct (checked (cd_cached cd (ad_hook d))).
  { injection H as <- <-. repeat split; auto.
    - destruct (granted _); discriminate.
    - destruct (granted _); discriminate. }
  destruct (be_new_ok be); simpl in H.
  2: { injection H as <- <-. repeat split; auto; discriminate. }
  destruct (portal_device (ad_hook d)) as [dev |]; [| discriminate].
  destruct (be_append_ok be); simpl in H.
  2: { injection H as <- <-. repeat split; auto; discriminate. }
  destruct (be_reply be) as [[handle |] |].
  - destruct (be_match_ok be).
    + injection H as <- <-. simpl. repeat split; eauto. intros Hn. congruence.
    + injection H as <- <-. simpl. repeat split; eauto. discriminate.
  - injection H as <- <-. simpl. repeat split; eauto. discriminate.
  - injection H as <- <-. simpl. repeat split; eauto. discriminate.
Qed.

(** X20: dispatching a signal other than the portal's Response, with every registered filter's entry live, changes nothing. *)
Theorem dispatch_ignores_other_signals :
  forall (u : userdata) (msg : dbus_message),
    dbus_message_is_signal msg "org.freedesktop.portal.Request" "Response" = false ->
    (forall p, p ∈ filters u -> exists cd, heap u !! p = Some cd) ->
    dispatch_signal u msg = Some u.
Proof. intros u msg. apply run_filters_not_response. Qed.

(** X21: [timeout_cb] marks the pending request's slot checked and granted, reports granted to [async_finish_cb], leaves the filters and all other slots and entries as they were (the time event is never armed, so this is the code's behaviour only if it ran). *)
Theorem timeout_grants :
  forall (u : userdata) (p : N) (cd : client_data) (d : access_data),
    heap u !! p = Some cd ->
    cd_access_data cd = Some d ->
    exists u' cd', timeout_cb u p = Some u' /\
      clients u' = clients u /\ filters u' = filters u /\ portal_calls u' = portal_calls u /\
      finished u' = finished u ++ [(ad_id d, true)] /\
      heap u' !! p = Some cd' /\
      cd_cached cd' (ad_hook d) = mk_async_cache true true /\
      (forall h, h <> ad_hook d -> cd_cached cd' h = cd_cached cd h) /\
      cd_index cd' = cd_index cd /\ cd_policy cd' = cd_policy cd /\
      cd_access_data cd' = Some d /\ cd_events cd' = cd_events cd /\
      (forall q, q <> p -> heap u' !! q = heap u !! q).
Proof.
  intros u p cd d Hh Hd. unfold timeout_cb. rewrite Hh, Hd.
  eexists _, _. split; [reflexivity |]. simpl.
  split; [reflexivity |]. split; [reflexivity |]. split; [reflexivity |].
  split.
  { unfold set_cached. simpl. rewrite decide_True by reflexivity. reflexivity. }
  split; [apply lookup_insert_eq |].
  split.
  { unfold set_cached. simpl. rewrite decide_True by reflexivity. reflexivity. }
  split.
  { intros h Hne. unfold set_cached. simpl. rewrite !decide_False by exact Hne. reflexivity. }
  repeat split; [exact Hd |].
  intros q Hq. apply lookup_insert_ne. congruence.
Qed.

End FlatpakExtras.

Module ExtraWitnesses.

Local Abbreviation U5 := (Flatpak.client_put_cb Scenarios.start Scenarios.client5).
Local Abbreviation UA5 := (Access.client_put_cb (Access.pa__init Scenarios.core0) 5).
Local Abbreviation US := (Scenarios.state_after Scenarios.first_request_trace).

Lemma filter_event_unclassified_blocked_witness :
  Flatpak.filter_event Scenarios.bus_ok U5 (Scenarios.sub_event 1 PA_SUBSCRIPTION_EVENT_TYPE_MASK 0 2) =
    Some (PA_HOOK_STOP, U5) /\
  Access.filter_event UA5 (Scenarios.sub_event 1 PA_SUBSCRIPTION_EVENT_TYPE_MASK 0 2) =
    Some (PA_HOOK_STOP, UA5).
Proof.
  apply filter_event_unclassified_blocked.
  - apply EntryProofs.consistent_client_put, EntryProofs.consistent_init.
  - left. vm_compute. reflexivity.
Defined.

Lemma filter_event_seen_pairs_witness :
  Flatpak.filter_event Scenarios.bus_ok U5 (Scenarios.sub_event 1 PA_SUBSCRIPTION_EVENT_REMOVE PA_SUBSCRIPTION_EVENT_SINK 2) =
    Some (PA_HOOK_STOP, U5) /\
  Access.filter_event UA5 (Scenarios.sub_event 1 PA_SUBSCRIPTION_EVENT_REMOVE PA_SUBSCRIPTION_EVENT_SINK 2) =
    Some (PA_HOOK_STOP, UA5).
Proof.
  destruct (filter_event_seen_pairs Scenarios.bus_ok U5 1
              (Flatpak.mk_client_data 5 0 4242 Flatpak.empty_cache None [])
              UA5 (Access.mk_client_data 5 0 [])
              (Scenarios.sub_event 1 PA_SUBSCRIPTION_EVENT_REMOVE PA_SUBSCRIPTION_EVENT_SINK 2))
    as [_ [_ [H3 H4]]]; [vm_compute; reflexivity .. |].
  split; [apply H3 | apply H4]; vm_compute; reflexivity.
Defined.

Lemma clients_map_consistent_along_traces_witness :
  Flatpak.clients_consistent US.
Proof.
  apply (clients_map_consistent_along_traces Flatpak.sandboxed_policy_for_client Scenarios.core0
           Scenarios.first_request_trace [None; Some PA_HOOK_CANCEL] US).
  vm_compute. reflexivity.
Defined.


Lemma access_new_then_change_remove_witness :
  Access.filter_event
    (Access.set_client UA5 5 (Access.mk_client_data 5 0 (add_event [] PA_SUBSCRIPTION_EVENT_SINK 2)))
    (Scenarios.sub_event 2 PA_SUBSCRIPTION_EVENT_REMOVE PA_SUBSCRIPTION_EVENT_SINK 2) =
  Some (PA_HOOK_OK, UA5).
Proof.
  apply (access_new_then_change_remove UA5
           (Access.set_client UA5 5 (Access.mk_client_data 5 0 (add_event [] PA_SUBSCRIPTION_EVENT_SINK 2)))
           (Access.mk_client_data 5 0 [])
           (Scenarios.sub_event 1 PA_SUBSCRIPTION_EVENT_NEW PA_SUBSCRIPTION_EVENT_SINK 2)
           (Scenarios.sub_event 2 PA_SUBSCRIPTION_EVENT_REMOVE PA_SUBSCRIPTION_EVENT_SINK 2));
    vm_compute; reflexivity.
Defined.

Lemma access_filter_event_frame_witness :
  Access.policies
    (Access.set_client UA5 5 (Access.mk_client_data 5 0 (add_event [] PA_SUBSCRIPTION_EVENT_SINK 2))) =
  Access.policies UA5.
Proof.
  destruct (access_filter_event_frame UA5
              (Access.set_client UA5 5 (Access.mk_client_data 5 0 (add_event [] PA_SUBSCRIPTION_EVENT_SINK 2)))
              (Scenarios.sub_event 1 PA_SUBSCRIPTION_EVENT_NEW PA_SUBSCRIPTION_EVENT_SINK 2) PA_HOOK_OK)
    as [_ [Hp _]]; [vm_compute; reflexivity | exact Hp].
Defined.

Lemma access_put_unlink_roundtrip_witness :
  Access.client_unlink_cb UA5 5 = Access.pa__init Scenarios.core0.
Proof.
  apply (access_put_unlink_roundtrip (Access.pa__init Scenarios.core0) 5). reflexivity.
Defined.

Lemma auth_keeps_portal_state_witness :
  exists u', Flatpak.client_auth_cb_sel Flatpak.sandboxed_policy_for_client U5 Scenarios.client5 = Some u' /\
    Flatpak.clients u' = Flatpak.clients U5.
Proof.
  destruct (FlatpakExtras.auth_keeps_portal_state Flatpak.sandboxed_policy_for_client U5 Scenarios.client5)
    as [u' [H1 [H2 _]]].
  - apply EntryProofs.consistent_client_put, EntryProofs.consistent_init.
  - exists u'. split; assumption.
Defined.

Lemma put_known_index_leaks_witness :
  Flatpak.clients (Flatpak.client_put_cb U5 Scenarios.client5) = Flatpak.clients U5 /\
  forall i, Flatpak.clients (Flatpak.client_put_cb U5 Scenarios.client5) !! i <> Some 2%N.
Proof.
  destruct (FlatpakExtras.put_known_index_leaks Flatpak.find_policy_for_client U5 Scenarios.client5 1)
    as [H1 [_ [_ [_ H5]]]].
  - apply EntryProofs.consistent_client_put, EntryProofs.consistent_init.
  - vm_compute. reflexivity.
  - split; [exact H1 | exact H5].
Defined.

Lemma put_unlink_roundtrip_witness :
  Flatpak.heap (Flatpak.client_unlink_cb (Flatpak.client_put_cb Scenarios.start Scenarios.client5)
                  Scenarios.client5) = Flatpak.heap Scenarios.start.
Proof.
  destruct (FlatpakExtras.put_unlink_roundtrip Flatpak.find_policy_for_client Scenarios.start
              Scenarios.client5 Scenarios.client5) as [_ [H _]].
  - apply EntryProofs.consistent_init.
  - reflexivity.
  - reflexivity.
  - exact H.
Defined.

Lemma rule_check_portal_effects_witness :
  Flatpak.filters
    (match Flatpak.rule_check_portal Scenarios.bus_ok
             (Flatpak.client_put_cb_sel Flatpak.sandboxed_policy_for_client Scenarios.start Scenarios.client5)
             (Scenarios.req 1 PA_ACCESS_HOOK_CONNECT_PLAYBACK) with
     | Some (_, u') => u'
     | None => Scenarios.start
     end) = [1%N].
Proof.
  destruct (FlatpakExtras.rule_check_portal_effects Scenarios.bus_ok
              (Flatpak.client_put_cb_sel Flatpak.sandboxed_policy_for_client Scenarios.start Scenarios.client5)
              (match Flatpak.rule_check_portal Scenarios.bus_ok
                       (Flatpak.client_put_cb_sel Flatpak.sandboxed_policy_for_client Scenarios.start Scenarios.client5)
                       (Scenarios.req 1 PA_ACCESS_HOOK_CONNECT_PLAYBACK) with
               | Some (_, u') => u'
               | None => Scenarios.start
               end)
              (Scenarios.req 1 PA_ACCESS_HOOK_CONNECT_PLAYBACK) PA_HOOK_CANCEL)
    as [p [Hp [_ [_ [_ [Hc _]]]]]].
  - vm_compute. reflexivity.
  - destruct (Hc eq_refl) as [Hf _]. rewrite Hf.
    vm_compute in Hp. injection Hp as <-. vm_compute. reflexivity.
Defined.

Lemma dispatch_ignores_other_signals_witness :
  Flatpak.dispatch_signal US
    (Flatpak.mk_dbus_message true "org.freedesktop.portal.Request" "Closed" []) = Some US.
Proof.
  apply FlatpakExtras.dispatch_ignores_other_signals.
  - vm_compute. reflexivity.
  - intros p Hp. vm_compute in Hp. apply list_elem_of_singleton in Hp. subst p.
    eexists. vm_compute. reflexivity.
Defined.

Lemma timeout_grants_witness :
  exists u', Flatpak.timeout_cb US 1 = Some u' /\
    Flatpak.finished u' = [(1%N, true)].
Proof.
  destruct (FlatpakExtras.timeout_grants US 1 Scenarios.pending_client5
              (Scenarios.req 1 PA_ACCESS_HOOK_CONNECT_PLAYBACK)) as [u' [cd' [H1 [_ [_ [_ [H5 _]]]]]]].
  - vm_compute. reflexivity.
  - reflexivity.
  - exists u'. split; [exact H1 |]. rewrite H5. vm_compute. reflexivity.
Defined.

End ExtraWitnesses.
